(** * State sync reactor (statesync/reactor.go)

    A shallow embedding of the state sync reactor: the wire messages it
    handles, the two p2p channels it registers, [Receive] (serving and
    forwarding inbound messages), [recentSnapshots] and [Sync].

    The reactor talks to collaborators whose code lives in other files
    (the ABCI application connection, the syncer, the message validator, the
    p2p switch and Go's [sort.Slice]).  Calls that only produce an effect
    (logging, sending, stopping a peer, broadcasting) are recorded as events
    of a trace; collaborators that return values are interfaces (type
    classes), as they are Go interfaces or separate files in the source.
    The model is sequential: the reactor's RWMutex is not represented. *)

From Stdlib Require Import List String ZArith NArith Bool Lia.
From Stdlib Require Import Sorting.Sorted Sorting.Permutation.
Import ListNotations.
Local Open Scope string_scope.
Local Open Scope list_scope.

(** ** Data *)

(** A Go [[]byte]: [None] is the nil slice, [Some []] an empty non-nil one.
    The distinction matters at [resp.Chunk == nil]. *)
Definition bytes := option (list Byte.byte).

(** [b == nil] on a byte slice. *)
Definition is_nil (b : bytes) : bool :=
  match b with None => true | Some _ => false end.

(** Modelled from the spec: the errors [syncer.SyncAny] returns; syncer.go is
    missing.  Section 4.4 of the specification lists the terminal failures of
    a session: discovery exhaustion, application ABORT, pool exhaustion and
    state-provider failure. *)
Inductive TerminalCategory :=
| DiscoveryExhaustion
| ApplicationAbort
| PoolExhaustion
| StateProviderFailure.

(** Go's [error] values seen by the reactor. *)
Inductive error :=
| errors_New (text : string)               (* errors.New(text) *)
| SyncAny_error (c : TerminalCategory).    (* an error produced by SyncAny *)

(** (value, err) results of fallible calls. *)
Inductive result (A : Type) :=
| Ok (a : A)
| Err (e : error).
Arguments Ok {A} a.
Arguments Err {A} e.

(** abci.Snapshot (proto/tendermint/abci/types.proto). *)
Module abci.
Record Snapshot := {
  Height : N;       (* uint64 *)
  Format : N;       (* uint32 *)
  Chunks : N;       (* uint32 *)
  Hash : bytes;
  Metadata : bytes }.

(** RequestLoadSnapshotChunk *)
Record RequestLoadSnapshotChunk := {
  rHeight : N;
  rFormat : N;
  rChunk : N }.
End abci.

(** The statesync package's own [snapshot] struct, with the fields the reactor
    fills in. *)
Module snapshot.
Record t := {
  Height : N;
  Format : N;
  Chunks : N;
  Hash : bytes;
  Metadata : bytes }.
End snapshot.

(** A value of the interface [p2p.Peer]: nil, or a connected peer, of which
    the reactor only reads the [ID()].  The switch delivers envelopes with a
    non-nil [Src]; envelopes built for sending leave it nil. *)
Inductive Peer :=
| Peer_nil
| Peer_of (ID : string).

Definition Peer_ID (p : Peer) : string :=
  match p with Peer_nil => "" | Peer_of id => id end.

(** The statesync package's [chunk] struct. *)
Module chunk.
Record t := {
  Height : N;
  Format : N;
  Index : N;
  Chunk : bytes;
  Sender : string }.
End chunk.

(** The messages of proto/tendermint/statesync. [OtherMessage] stands for
    any other [proto.Message] (nil included) an envelope may carry. *)
Module ssproto.
Inductive Message :=
| SnapshotsRequest
| SnapshotsResponse (Height Format Chunks : N) (Hash Metadata : bytes)
| ChunkRequest (Height Format Index : N)
| ChunkResponse (Height Format Index : N) (Chunk : bytes) (Missing : bool)
| OtherMessage.
End ssproto.

Module p2p.
Record Envelope := {
  Src : Peer;
  ChannelID : Z;              (* byte *)
  Message : ssproto.Message }.

(** The fields of [p2p.ChannelDescriptor] that [GetChannels] sets
    ([MessageType] is [&ssproto.Message{}] for both channels). *)
Record ChannelDescriptor := {
  ID : Z;
  Priority : Z;
  SendQueueCapacity : Z;
  RecvMessageCapacity : Z }.
End p2p.

(** ** Constants *)

(** SnapshotChannel exchanges snapshot metadata. *)
Definition SnapshotChannel : Z := 0x60.
(** ChunkChannel exchanges chunk contents. *)
Definition ChunkChannel : Z := 0x61.
(** recentSnapshots is the number of recent snapshots to send and receive per
    peer. *)
Definition recentSnapshots : nat := 10.

(** ** Effects *)

(** What the reactor does to the outside world, in program order. *)
Inductive Event :=
| Logger_Error (msg : string)
| Logger_Debug (msg : string)
| Switch_StopPeerForError (peer : Peer) (reason : error) (reactor : string)
| Switch_Broadcast (e : p2p.Envelope)
| Peer_Send (peer : Peer) (e : p2p.Envelope)
| conn_ListSnapshots
| conn_LoadSnapshotChunk (req : abci.RequestLoadSnapshotChunk)
| syncer_AddSnapshot (peer : Peer) (s : snapshot.t)
| syncer_AddChunk (c : chunk.t).

Definition is_log (ev : Event) : Prop :=
  match ev with
  | Logger_Error _ | Logger_Debug _ => True
  | _ => False
  end.

(** ** Collaborators *)

(** Types owned by other packages. *)
Class ExternalTypes := {
  syncer : Type;            (* the state behind a *syncer *)
  App : Type;               (* the application behind proxy.AppConnSnapshot *)
  StateSyncConfig : Type;   (* config.StateSyncConfig *)
  StateProvider : Type;
  State : Type;             (* sm.State *)
  Commit : Type;            (* types.Commit *)
  State_zero : State        (* sm.State{} *)
}.

(** proxy.AppConnSnapshot, restricted to the two calls the reactor makes.
    Each call may change the application. *)
Class AppConnSnapshot `{ExternalTypes} := {
  ListSnapshots : App -> result (list abci.Snapshot) * App;
  LoadSnapshotChunk :
    App -> abci.RequestLoadSnapshotChunk -> result bytes * App
}.

(** messages.go: the validator and the two size limits. *)
Class Messages := {
  validateMsg : ssproto.Message -> option error;
  snapshotMsgSize : Z;
  chunkMsgSize : Z
}.

(** A comparison acceptable to [sort.Slice]. *)
Record StrictWeakOrder {A : Type} (less : A -> A -> bool) : Prop := {
  swo_irrefl : forall a, less a a = false;
  swo_trans : forall a b c,
      less a b = true -> less b c = true -> less a c = true;
  swo_incomp : forall a b c,
      less a b = false -> less b a = false ->
      less b c = false -> less c b = false ->
      less a c = false /\ less c a = false
}.

(** What [sort.IsSorted] checks: no element is less than its predecessor. *)
Definition IsSorted {A : Type} (less : A -> A -> bool) (l : list A) : Prop :=
  Sorted (fun a b => less b a = false) l.

(** Go's [sort.Slice]: it permutes the slice and, for a strict weak order,
    leaves it sorted; it is not stable, so the order of equal elements is
    not determined. *)
Class GoSort := {
  sort_Slice : forall {A : Type}, (A -> A -> bool) -> list A -> list A;
  sort_Slice_perm : forall A (less : A -> A -> bool) l,
      Permutation (sort_Slice less l) l;
  sort_Slice_sorted : forall A (less : A -> A -> bool) l,
      StrictWeakOrder less -> IsSorted less (sort_Slice less l)
}.

(** ** The reactor *)

Section Reactor.
Context `{ET : ExternalTypes}.

(** Reactor handles state sync, both restoring snapshots for the local node
    and serving snapshots for other nodes.  [conn] is the application as
    reached through the snapshot connection; [connQuery], a second handle on
    the same application that is only passed on to the syncer, and the mutex
    are left out. *)
Record Reactor := {
  running : bool;            (* BaseService: what IsRunning() reports *)
  name : string;             (* BaseService: what String() reports *)
  cfg : StateSyncConfig;
  conn : App;
  tempDir : string;
  Syncing : Z;               (* metrics.Syncing gauge *)
  (* This will only be set when a state sync is in progress. It is used to
     feed received snapshots and chunks into the sync. *)
  syncer_ : option syncer
}.

(** NewReactor creates a new state sync reactor.  It is not running until
    the service is started, and no sync is in progress. *)
Definition NewReactor (cfg : StateSyncConfig) (conn : App) (Syncing : Z)
  : Reactor :=
  {| running := false; name := "StateSync"; cfg := cfg; conn := conn;
     tempDir := ""; Syncing := Syncing; syncer_ := None |}.

Definition set_syncer (r : Reactor) (s : option syncer) : Reactor :=
  {| running := running r; name := name r; cfg := cfg r; conn := conn r;
     tempDir := tempDir r; Syncing := Syncing r; syncer_ := s |}.

Definition set_Syncing (r : Reactor) (v : Z) : Reactor :=
  {| running := running r; name := name r; cfg := cfg r; conn := conn r;
     tempDir := tempDir r; Syncing := v; syncer_ := syncer_ r |}.

Definition set_conn (r : Reactor) (a : App) : Reactor :=
  {| running := running r; name := name r; cfg := cfg r; conn := a;
     tempDir := tempDir r; Syncing := Syncing r; syncer_ := syncer_ r |}.

(** A method of the reactor: it reads and updates the reactor and appends
    to the trace. *)
Definition M (A : Type) : Type := Reactor -> A * Reactor * list Event.

Definition ret {A} (a : A) : M A := fun r => (a, r, []).

Definition bind {A B} (m : M A) (k : A -> M B) : M B :=
  fun r =>
    let '(a, r1, t1) := m r in
    let '(b, r2, t2) := k a r1 in
    (b, r2, t1 ++ t2).

Definition get : M Reactor := fun r => (r, r, []).
Definition modify (f : Reactor -> Reactor) : M unit := fun r => (tt, f r, []).
Definition emit (ev : Event) : M unit := fun r => (tt, r, [ev]).

(** [for _, x := range l { body x }] *)
Fixpoint for_range {A} (l : list A) (body : A -> M unit) : M unit :=
  match l with
  | [] => ret tt
  | x :: rest => bind (body x) (fun _ => for_range rest body)
  end.

Definition value_of {A} (x : A * Reactor * list Event) : A := fst (fst x).
Definition state_of {A} (x : A * Reactor * list Event) : Reactor := snd (fst x).
Definition trace_of {A} (x : A * Reactor * list Event) : list Event := snd x.
End Reactor.

Declare Scope reactor_scope.
Delimit Scope reactor_scope with reactor.
Notation "x <- c1 ;; c2" := (bind c1 (fun x => c2))
  (at level 61, c1 at next level, right associativity) : reactor_scope.
Notation "c1 ;; c2" := (bind c1 (fun _ => c2))
  (at level 61, right associativity) : reactor_scope.
Local Open Scope reactor_scope.

(** syncer.go, as the reactor uses it.  [SyncAny] blocks for the whole
    session; it is handed the re-broadcast hook and returns the session's
    result, and whatever it does meanwhile shows as its own effect on the
    reactor and the trace. *)
Class SyncerAPI `{ET : ExternalTypes} := {
  newSyncer : StateSyncConfig -> StateProvider -> string -> syncer;
  AddSnapshot : syncer -> Peer -> snapshot.t -> (bool * option error) * syncer;
  AddChunk : syncer -> chunk.t -> (bool * option error) * syncer;
  SyncAny : syncer -> Z -> M unit ->
            M (State * option Commit * option TerminalCategory)
}.

Section Methods.
Context `{ET : ExternalTypes} `{!AppConnSnapshot} `{MS : Messages}
        `{GS : GoSort} `{!SyncerAPI}.

(** GetChannels implements p2p.Reactor. *)
Definition GetChannels : list p2p.ChannelDescriptor :=
  [ {| p2p.ID := SnapshotChannel;
       p2p.Priority := 5;
       p2p.SendQueueCapacity := 10;
       p2p.RecvMessageCapacity := snapshotMsgSize |};
    {| p2p.ID := ChunkChannel;
       p2p.Priority := 3;
       p2p.SendQueueCapacity := 10;
       p2p.RecvMessageCapacity := chunkMsgSize |} ].

(** The comparison closure handed to [sort.Slice] in [recentSnapshots]. *)
Definition snapshot_less (a b : abci.Snapshot) : bool :=
  if (abci.Height b <? abci.Height a)%N then true
  else if (abci.Height a =? abci.Height b)%N
          && (abci.Format b <? abci.Format a)%N then true
  else false.

Definition to_snapshot (s : abci.Snapshot) : snapshot.t :=
  {| snapshot.Height := abci.Height s;
     snapshot.Format := abci.Format s;
     snapshot.Chunks := abci.Chunks s;
     snapshot.Hash := abci.Hash s;
     snapshot.Metadata := abci.Metadata s |}.

(** The loop of [recentSnapshots]: [i] is the index of the head of [l],
    [snapshots] the slice built so far. *)
Fixpoint collect_recent (i : nat) (l : list abci.Snapshot)
         (snapshots : list snapshot.t) : list snapshot.t :=
  match l with
  | [] => snapshots
  | s :: rest =>
      if (recentSnapshots <=? i)%nat then snapshots
      else collect_recent (S i) rest (snapshots ++ [to_snapshot s])
  end.

(** recentSnapshots fetches the n most recent snapshots from the app.
    [n] is only the capacity of the slice that is allocated; the loop is
    bounded by the constant. *)
Definition Reactor_recentSnapshots (n : nat) : M (result (list snapshot.t)) :=
  r <- get ;;
  emit conn_ListSnapshots ;;
  let '(resp, app') := ListSnapshots (conn r) in
  modify (fun r => set_conn r app') ;;
  match resp with
  | Err err => ret (Err err)
  | Ok resp_Snapshots =>
      let sorted := sort_Slice snapshot_less resp_Snapshots in
      ret (Ok (collect_recent 0 sorted []))
  end.

(** The hook of [Sync]: request snapshots from all currently connected
    peers. *)
Definition hook : M unit :=
  emit (Logger_Debug "Requesting snapshots from known peers") ;;
  emit (Switch_Broadcast {| p2p.Src := Peer_nil;
                            p2p.ChannelID := SnapshotChannel;
                            p2p.Message := ssproto.SnapshotsRequest |}).

(** Receive implements p2p.Reactor. *)
Definition Receive (e : p2p.Envelope) : M unit :=
  r <- get ;;
  if negb (running r) then ret tt
  else
    match validateMsg (p2p.Message e) with
    | Some err =>
        emit (Logger_Error "Invalid message") ;;
        emit (Switch_StopPeerForError (p2p.Src e) err (name r))
    | None =>
        if (p2p.ChannelID e =? SnapshotChannel)%Z then
          match p2p.Message e with
          | ssproto.SnapshotsRequest =>
              res <- Reactor_recentSnapshots recentSnapshots ;;
              match res with
              | Err _ => emit (Logger_Error "Failed to fetch snapshots")
              | Ok snapshots =>
                  for_range snapshots (fun snapshot =>
                    emit (Logger_Debug "Advertising snapshot") ;;
                    emit (Peer_Send (p2p.Src e)
                      {| p2p.Src := Peer_nil;
                         p2p.ChannelID := p2p.ChannelID e;
                         p2p.Message :=
                           ssproto.SnapshotsResponse
                             (snapshot.Height snapshot)
                             (snapshot.Format snapshot)
                             (snapshot.Chunks snapshot)
                             (snapshot.Hash snapshot)
                             (snapshot.Metadata snapshot) |}))
              end
          | ssproto.SnapshotsResponse Height Format Chunks Hash Metadata =>
              r <- get ;;
              match syncer_ r with
              | None =>
                  emit (Logger_Debug
                    "Received unexpected snapshot, no state sync in progress")
              | Some s =>
                  emit (Logger_Debug "Received snapshot") ;;
                  let snap := {| snapshot.Height := Height;
                                 snapshot.Format := Format;
                                 snapshot.Chunks := Chunks;
                                 snapshot.Hash := Hash;
                                 snapshot.Metadata := Metadata |} in
                  emit (syncer_AddSnapshot (p2p.Src e) snap) ;;
                  let '(_, err, s') := AddSnapshot s (p2p.Src e) snap in
                  modify (fun r => set_syncer r (Some s')) ;;
                  match err with
                  | Some _ => emit (Logger_Error "Failed to add snapshot")
                  | None => ret tt
                  end
              end
          | _ => emit (Logger_Error "Received unknown message %T")
          end
        else if (p2p.ChannelID e =? ChunkChannel)%Z then
          match p2p.Message e with
          | ssproto.ChunkRequest Height Format Index =>
              emit (Logger_Debug "Received chunk request") ;;
              let req := {| abci.rHeight := Height;
                            abci.rFormat := Format;
                            abci.rChunk := Index |} in
              emit (conn_LoadSnapshotChunk req) ;;
              r <- get ;;
              let '(resp, app') := LoadSnapshotChunk (conn r) req in
              modify (fun r => set_conn r app') ;;
              match resp with
              | Err _ => emit (Logger_Error "Failed to load chunk")
              | Ok resp_Chunk =>
                  emit (Logger_Debug "Sending chunk") ;;
                  emit (Peer_Send (p2p.Src e)
                    {| p2p.Src := Peer_nil;
                       p2p.ChannelID := ChunkChannel;
                       p2p.Message :=
                         ssproto.ChunkResponse Height Format Index
                           resp_Chunk (is_nil resp_Chunk) |})
              end
          | ssproto.ChunkResponse Height Format Index Chunk Missing =>
              r <- get ;;
              match syncer_ r with
              | None =>
                  emit (Logger_Debug
                    "Received unexpected chunk, no state sync in progress")
              | Some s =>
                  emit (Logger_Debug "Received chunk, adding to sync") ;;
                  let c := {| chunk.Height := Height;
                              chunk.Format := Format;
                              chunk.Index := Index;
                              chunk.Chunk := Chunk;
                              chunk.Sender := Peer_ID (p2p.Src e) |} in
                  emit (syncer_AddChunk c) ;;
                  let '(_, err, s') := AddChunk s c in
                  modify (fun r => set_syncer r (Some s')) ;;
                  match err with
                  | Some _ => emit (Logger_Error "Failed to add chunk")
                  | None => ret tt
                  end
              end
          | _ => emit (Logger_Error "Received unknown message %T")
          end
        else emit (Logger_Error "Received message on invalid channel %x")
    end.

(** Sync runs a state sync, returning the new state and last commit at the
    snapshot height.  [r.syncer], read back for the [SyncAny] call, is the
    syncer stored a few lines above: the hook does not touch it.  The error
    of [SyncAny] is returned as it is; [SyncAny_error] only tells where it
    comes from. *)
Definition Sync (stateProvider : StateProvider) (discoveryTime : Z)
  : M (State * option Commit * option error) :=
  r <- get ;;
  match syncer_ r with
  | Some _ =>
      ret (State_zero, None,
           Some (errors_New "a state sync is already in progress"))
  | None =>
      modify (fun r => set_Syncing r 1) ;;
      let s := newSyncer (cfg r) stateProvider (tempDir r) in
      modify (fun r => set_syncer r (Some s)) ;;
      hook ;;
      res <- SyncAny s discoveryTime hook ;;
      let '(state, commit, err) := res in
      modify (fun r => set_syncer r None) ;;
      modify (fun r => set_Syncing r 0) ;;
      ret (state, commit, option_map SyncAny_error err)
  end.

End Methods.

(** ** Vocabulary of the properties *)

Definition is_request (m : ssproto.Message) : bool :=
  match m with
  | ssproto.SnapshotsRequest | ssproto.ChunkRequest _ _ _ => true
  | _ => false
  end.

Definition is_response (m : ssproto.Message) : bool :=
  match m with
  | ssproto.SnapshotsResponse _ _ _ _ _ | ssproto.ChunkResponse _ _ _ _ _ =>
      true
  | _ => false
  end.

(** Descending (Height, Format): [a] may stand before [b]. *)
Definition newer_or_equal (a b : abci.Snapshot) : Prop :=
  (abci.Height b < abci.Height a)%N \/
  (abci.Height a = abci.Height b /\ (abci.Format b <= abci.Format a)%N).

(** The response that advertises a snapshot on channel [ch]. *)
Definition advertise (ch : Z) (s : abci.Snapshot) : p2p.Envelope :=
  {| p2p.Src := Peer_nil;
     p2p.ChannelID := ch;
     p2p.Message :=
       ssproto.SnapshotsResponse (abci.Height s) (abci.Format s)
         (abci.Chunks s) (abci.Hash s) (abci.Metadata s) |}.

(** The envelope of the discovery broadcast. *)
Definition discovery_request : p2p.Envelope :=
  {| p2p.Src := Peer_nil;
     p2p.ChannelID := SnapshotChannel;
     p2p.Message := ssproto.SnapshotsRequest |}.

(** The error of the single-session guard. *)
Definition already_in_progress : error :=
  errors_New "a state sync is already in progress".

(** An error of one of the four terminal categories (a)-(d). *)
Definition is_terminal_category (e : error) : Prop :=
  exists c, e = SyncAny_error c.

Ltac run_reactor :=
  unfold Receive, Sync, Reactor_recentSnapshots, hook, bind, get, emit,
    modify, ret, value_of, state_of, trace_of; simpl.

(** ** A test double for the collaborators

    A small application, validator, sort and syncer to run the reactor on
    concrete inputs, in the manner of the mocks of the Go tests. *)
Module Mock.

(** The application keeps its snapshots and counts the calls it served. *)
Record MockApp := {
  app_snapshots : list abci.Snapshot;
  app_calls : nat }.

(** The syncer records what it was fed. *)
Record MockSyncer := {
  fed_snapshots : list snapshot.t;
  fed_chunks : list chunk.t }.

#[export] Instance types : ExternalTypes := {|
  syncer := MockSyncer;
  App := MockApp;
  StateSyncConfig := unit;
  StateProvider := unit;
  State := N;
  Commit := N;
  State_zero := 0%N |}.

Definition served (a : MockApp) : MockApp :=
  {| app_snapshots := app_snapshots a; app_calls := S (app_calls a) |}.

(** Chunk [i] of a snapshot the application holds is the one byte x00;
    anything else is absent (a nil chunk). *)
Definition mock_chunk (a : MockApp) (req : abci.RequestLoadSnapshotChunk)
  : bytes :=
  if existsb (fun s => (abci.Height s =? abci.rHeight req)%N
                       && (abci.Format s =? abci.rFormat req)%N
                       && (abci.rChunk req <? abci.Chunks s)%N)
             (app_snapshots a)
  then Some [Byte.x00] else None.

#[export] Instance app : AppConnSnapshot := {|
  ListSnapshots := fun a => (Ok (app_snapshots a), served a);
  LoadSnapshotChunk := fun a req => (Ok (mock_chunk a req), served a) |}.

(** A validator that refuses foreign messages and messages at height 0. *)
Definition mock_validateMsg (m : ssproto.Message) : option error :=
  match m with
  | ssproto.SnapshotsRequest => None
  | ssproto.SnapshotsResponse h _ _ _ _
  | ssproto.ChunkRequest h _ _
  | ssproto.ChunkResponse h _ _ _ _ =>
      if (h =? 0)%N then Some (errors_New "height cannot be 0") else None
  | ssproto.OtherMessage => Some (errors_New "unknown message type")
  end.

#[export] Instance messages : Messages := {|
  validateMsg := mock_validateMsg;
  snapshotMsgSize := 4000000;
  chunkMsgSize := 16000000 |}.

(** Insertion sort stands in for [sort.Slice]. *)
Fixpoint insert {A} (less : A -> A -> bool) (x : A) (l : list A) : list A :=
  match l with
  | [] => [x]
  | y :: rest => if less y x then y :: insert less x rest else x :: l
  end.

Fixpoint isort {A} (less : A -> A -> bool) (l : list A) : list A :=
  match l with
  | [] => []
  | x :: rest => insert less x (isort less rest)
  end.

Lemma insert_perm {A} (less : A -> A -> bool) x l :
  Permutation (insert less x l) (x :: l).
Proof.
  induction l as [|y rest IH]; simpl.
  - apply Permutation_refl.
  - destruct (less y x).
    + eapply perm_trans; [apply perm_skip, IH | apply perm_swap].
    + apply Permutation_refl.
Qed.

Lemma isort_perm {A} (less : A -> A -> bool) l :
  Permutation (isort less l) l.
Proof.
  induction l as [|x rest IH]; simpl.
  - constructor.
  - eapply perm_trans; [apply insert_perm | now apply perm_skip].
Qed.

Lemma insert_HdRel {A} (less : A -> A -> bool) a x l :
  less x a = false ->
  HdRel (fun a b => less b a = false) a l ->
  HdRel (fun a b => less b a = false) a (insert less x l).
Proof.
  intros Hx Hl. destruct l as [|y rest]; simpl.
  - now constructor.
  - inversion Hl; subst. destruct (less y x); now constructor.
Qed.

Lemma insert_sorted {A} (less : A -> A -> bool) x l :
  StrictWeakOrder less -> IsSorted less l -> IsSorted less (insert less x l).
Proof.
  intros W. unfold IsSorted. induction 1 as [|y rest Hs IH Hd]; simpl.
  - repeat constructor.
  - destruct (less y x) eqn:E.
    + constructor; [exact IH|]. apply insert_HdRel; [|exact Hd].
      destruct (less x y) eqn:E'; [|reflexivity].
      pose proof (swo_trans less W _ _ _ E E') as T.
      rewrite (swo_irrefl less W) in T. discriminate.
    + constructor; [now constructor | now constructor].
Qed.

Lemma isort_sorted {A} (less : A -> A -> bool) l :
  StrictWeakOrder less -> IsSorted less (isort less l).
Proof.
  intros W. induction l as [|x rest IH]; simpl.
  - constructor.
  - now apply insert_sorted.
Qed.

#[export] Instance gosort : GoSort := {|
  sort_Slice := @isort;
  sort_Slice_perm := @isort_perm;
  sort_Slice_sorted := @isort_sorted |}.

(** The syncer double: [SyncAny] re-broadcasts once through the hook, then
    settles on the first snapshot it was fed, or gives up. *)
Definition feed_snapshot (s : MockSyncer) (x : snapshot.t) : MockSyncer :=
  {| fed_snapshots := x :: fed_snapshots s; fed_chunks := fed_chunks s |}.

Definition feed_chunk (s : MockSyncer) (c : chunk.t) : MockSyncer :=
  {| fed_snapshots := fed_snapshots s; fed_chunks := c :: fed_chunks s |}.

Definition mock_SyncAny (s : MockSyncer) (discoveryTime : Z) (hook : M unit)
  : M (N * option N * option TerminalCategory) :=
  hook ;;
  r <- get ;;
  match syncer_ r with
  | Some {| fed_snapshots := x :: _ |} =>
      ret (snapshot.Height x, Some (snapshot.Height x), None)
  | _ => ret (0%N, None, Some DiscoveryExhaustion)
  end.

#[export] Instance syncer_api : SyncerAPI := {|
  newSyncer := fun _ _ _ => {| fed_snapshots := []; fed_chunks := [] |};
  AddSnapshot := fun s _ x => (true, None, feed_snapshot s x);
  AddChunk := fun s c => (true, None, feed_chunk s c);
  SyncAny := mock_SyncAny |}.

Definition snap (h f c : N) : abci.Snapshot :=
  {| abci.Height := h; abci.Format := f; abci.Chunks := c;
     abci.Hash := Some [Byte.x01]; abci.Metadata := None |}.

Definition the_app : MockApp :=
  {| app_snapshots := [snap 90 2 4; snap 100 1 3; snap 100 2 3];
     app_calls := 0 |}.

(** A started reactor with no sync in progress. *)
Definition idle : Reactor :=
  {| running := true; name := "StateSync"; cfg := tt; conn := the_app;
     tempDir := ""; Syncing := 0; syncer_ := None |}.

(** A reactor as [NewReactor] makes it, not started yet. *)
Definition stopped : Reactor := NewReactor tt the_app 0.

(** The same reactor in the middle of a sync. *)
Definition busy : Reactor :=
  {| running := true; name := "StateSync"; cfg := tt; conn := the_app;
     tempDir := ""; Syncing := 1;
     syncer_ := Some {| fed_snapshots := []; fed_chunks := [] |} |}.

Definition alice : Peer := Peer_of "alice".

Definition from_alice (ch : Z) (m : ssproto.Message) : p2p.Envelope :=
  {| p2p.Src := alice; p2p.ChannelID := ch; p2p.Message := m |}.

End Mock.

(** ** Properties of the reactor *)

Section Properties.
Context `{ET : ExternalTypes} `{!AppConnSnapshot} `{MS : Messages}
        `{GS : GoSort} `{!SyncerAPI}.

Lemma firstn_recent_length {A} (l : list A) :
  (List.length (firstn recentSnapshots l) <= 10)%nat.
Proof. apply firstn_le_length. Qed.

Opaque recentSnapshots.

Lemma set_syncer_same (r : Reactor) : set_syncer r (syncer_ r) = r.
Proof. now destruct r. Qed.

Lemma collect_recent_spec i l acc :
  collect_recent i l acc
  = acc ++ map to_snapshot (firstn (recentSnapshots - i) l).
Proof.
  revert i acc. induction l as [|s rest IH]; intros i acc;
    cbn [collect_recent].
  - now rewrite firstn_nil, app_nil_r.
  - destruct (Nat.leb_spec recentSnapshots i) as [Hle|Hlt].
    + replace (recentSnapshots - i)%nat with 0%nat by lia.
      cbn [firstn map]. now rewrite app_nil_r.
    + rewrite IH.
      replace (recentSnapshots - i)%nat
        with (S (recentSnapshots - S i)) by lia.
      cbn [firstn map]. now rewrite <- app_assoc.
Qed.

Lemma snapshot_less_false a b :
  snapshot_less b a = false <-> newer_or_equal a b.
Proof.
  unfold snapshot_less, newer_or_equal.
  destruct (N.ltb_spec (abci.Height a) (abci.Height b));
    destruct (N.eqb_spec (abci.Height b) (abci.Height a));
    destruct (N.ltb_spec (abci.Format a) (abci.Format b));
    simpl; split; intros; try discriminate; try lia; try reflexivity.
Qed.

Lemma snapshot_less_true a b :
  snapshot_less a b = true <->
  (abci.Height b < abci.Height a)%N \/
  (abci.Height a = abci.Height b /\ (abci.Format b < abci.Format a)%N).
Proof.
  unfold snapshot_less.
  destruct (N.ltb_spec (abci.Height b) (abci.Height a));
    destruct (N.eqb_spec (abci.Height a) (abci.Height b));
    destruct (N.ltb_spec (abci.Format b) (abci.Format a));
    simpl; split; intros; try discriminate; try lia; try reflexivity.
Qed.

(** The closure given to [sort.Slice] is a strict weak order, as the sort
    requires. *)
Lemma snapshot_less_swo : StrictWeakOrder snapshot_less.
Proof.
  split.
  - intros a. apply snapshot_less_false. right. split; [reflexivity | lia].
  - intros a b c H1 H2. apply snapshot_less_true.
    apply snapshot_less_true in H1. apply snapshot_less_true in H2. lia.
  - intros a b c H1 H2 H3 H4.
    apply snapshot_less_false in H1, H2, H3, H4.
    split; apply snapshot_less_false;
      unfold newer_or_equal in *; lia.
Qed.

Lemma newer_or_equal_trans a b c :
  newer_or_equal a b -> newer_or_equal b c -> newer_or_equal a c.
Proof. unfold newer_or_equal. lia. Qed.

Lemma sorted_descending (l : list abci.Snapshot) :
  StronglySorted newer_or_equal (sort_Slice snapshot_less l).
Proof.
  apply Sorted_StronglySorted.
  - intros a b c. apply newer_or_equal_trans.
  - pose proof (sort_Slice_sorted _ snapshot_less l snapshot_less_swo) as S.
    unfold IsSorted in S.
    induction S as [|a rest S IH Hd]; constructor; [exact IH|].
    destruct Hd; constructor. now apply snapshot_less_false.
Qed.

Lemma for_range_emit2 {A} (f g : A -> Event) (l : list A) (r : Reactor) :
  for_range l (fun x => emit (f x) ;; emit (g x)) r
  = (tt, r, flat_map (fun x => [f x; g x]) l).
Proof.
  induction l as [|x rest IH]; simpl.
  - reflexivity.
  - unfold bind at 1. unfold bind at 1. unfold emit at 1 2. rewrite IH.
    reflexivity.
Qed.

(** *** Sync *)

(** What [hook] does, whenever it is called: one debug line and the
    broadcast of a [SnapshotsRequest] on the snapshot channel. *)
Lemma hook_run (r : Reactor) :
  hook r = (tt, r, [Logger_Debug "Requesting snapshots from known peers";
                    Switch_Broadcast discovery_request]).
Proof. reflexivity. Qed.

(** The reactor as [SyncAny] finds it: the gauge at 1 and the new syncer
    installed. *)
Definition session_start (r : Reactor) (stateProvider : StateProvider)
  : Reactor :=
  set_syncer (set_Syncing r 1)
             (Some (newSyncer (cfg r) stateProvider (tempDir r))).

(** A run of [Sync] that passes the guard, spelled out. *)
Lemma Sync_session (r : Reactor) stateProvider discoveryTime :
  syncer_ r = None ->
  Sync stateProvider discoveryTime r =
  let '(state, commit, err, r2, t) :=
    SyncAny (newSyncer (cfg r) stateProvider (tempDir r)) discoveryTime hook
            (session_start r stateProvider) in
  ((state, commit, option_map SyncAny_error err),
   set_Syncing (set_syncer r2 None) 0,
   [Logger_Debug "Requesting snapshots from known peers";
    Switch_Broadcast discovery_request] ++ t).
Proof.
  intros Hidle. unfold session_start. run_reactor. rewrite Hidle.
  destruct (SyncAny _ _ _ _) as [[[[state commit] err] r2] t].
  simpl. now rewrite !app_nil_r.
Qed.

(** The guard of [Sync]. *)
Lemma Sync_guard (r : Reactor) (s : syncer) stateProvider discoveryTime :
  syncer_ r = Some s ->
  Sync stateProvider discoveryTime r
  = ((State_zero, None, Some already_in_progress), r, []).
Proof.
  intros Hbusy. run_reactor. now rewrite Hbusy.
Qed.

(** C1. A call to [Sync] made while a session is in progress returns the
    empty state, a nil commit and an error; the reactor is left as it was
    (the syncer in place is kept) and nothing is emitted, no broadcast in
    particular. *)
Theorem Sync_rejects_second_session
        (r : Reactor) (s : syncer) stateProvider discoveryTime :
  syncer_ r = Some s ->
  Sync stateProvider discoveryTime r
  = ((State_zero, None, Some already_in_progress), r, []).
Proof. apply Sync_guard. Qed.

(** C2, as amended. The error [Sync] returns is either the error of the
    single-session guard, for a call made while a session is in progress, or,
    for a call that passed the guard, the error [SyncAny] returned, handed on
    unchanged, which is of one of the four terminal categories. *)
Theorem Sync_errors (r : Reactor) stateProvider discoveryTime (e : error) :
  snd (value_of (Sync stateProvider discoveryTime r)) = Some e ->
  (syncer_ r <> None /\ e = already_in_progress) \/
  (syncer_ r = None /\
   exists c,
     e = SyncAny_error c /\
     snd (value_of (SyncAny (newSyncer (cfg r) stateProvider (tempDir r))
                            discoveryTime hook
                            (session_start r stateProvider))) = Some c).
Proof.
  destruct (syncer_ r) as [s|] eqn:Hs.
  - rewrite (Sync_guard r s); [|exact Hs].
    unfold value_of. simpl. intros [= <-]. left. split; [discriminate|reflexivity].
  - rewrite Sync_session by exact Hs.
    destruct (SyncAny _ _ _ _) as [[[[state commit] err] r2] t].
    unfold value_of. simpl. destruct err as [c|]; [|discriminate].
    simpl. intros [= <-]. right. split; [reflexivity|]. now exists c.
Qed.

(** C6. A call to [Sync] that passes the guard first runs the hook, which
    broadcasts a [SnapshotsRequest] on the snapshot channel, and only then
    calls [SyncAny], to which it hands that same hook: the trace of [Sync]
    is the broadcast followed by whatever [SyncAny] does. *)
Theorem Sync_broadcasts_then_waits
        (r : Reactor) stateProvider discoveryTime :
  syncer_ r = None ->
  (forall r', trace_of (hook r') =
              [Logger_Debug "Requesting snapshots from known peers";
               Switch_Broadcast discovery_request]) /\
  trace_of (Sync stateProvider discoveryTime r)
  = [Logger_Debug "Requesting snapshots from known peers";
     Switch_Broadcast discovery_request]
    ++ trace_of (SyncAny (newSyncer (cfg r) stateProvider (tempDir r))
                         discoveryTime hook
                         (session_start r stateProvider)).
Proof.
  intros Hidle. split; [reflexivity|].
  rewrite Sync_session by exact Hidle.
  now destruct (SyncAny _ _ _ _) as [[[[state commit] err] r2] t].
Qed.

(** C9. When a call to [Sync] that passed the guard returns, whatever
    [SyncAny] answered, the syncer field is nil again and the gauge is 0;
    a further call to [Sync] is not turned away by the guard: it does not
    return the guard's error and it starts with the discovery broadcast. *)
Theorem Sync_returns_to_idle (r : Reactor) stateProvider discoveryTime :
  syncer_ r = None ->
  let r' := state_of (Sync stateProvider discoveryTime r) in
  syncer_ r' = None /\
  Syncing r' = 0%Z /\
  forall stateProvider' discoveryTime',
    snd (value_of (Sync stateProvider' discoveryTime' r'))
      <> Some already_in_progress /\
    exists t,
      trace_of (Sync stateProvider' discoveryTime' r')
      = Logger_Debug "Requesting snapshots from known peers"
        :: Switch_Broadcast discovery_request :: t.
Proof.
  intros Hidle r'. subst r'.
  rewrite Sync_session by exact Hidle.
  destruct (SyncAny _ _ _ _) as [[[[state commit] err] r2] t].
  unfold state_of at 1 2. simpl.
  split; [reflexivity|]. split; [reflexivity|].
  intros sp' dt'. rewrite Sync_session by reflexivity.
  destruct (SyncAny _ _ _ _) as [[[[state' commit'] err'] r3] t'].
  unfold value_of, trace_of. simpl. split.
  - destruct err'; simpl; discriminate.
  - now exists t'.
Qed.

(** *** Receive *)

(** A reactor that is not running drops every envelope. *)
Lemma Receive_not_running (r : Reactor) (e : p2p.Envelope) :
  running r = false -> Receive e r = (tt, r, []).
Proof.
  intros Hoff. run_reactor. now rewrite Hoff.
Qed.

(** The validation gate. *)
Lemma Receive_invalid (r : Reactor) (e : p2p.Envelope) (err : error) :
  running r = true ->
  validateMsg (p2p.Message e) = Some err ->
  Receive e r
  = (tt, r, [Logger_Error "Invalid message";
             Switch_StopPeerForError (p2p.Src e) err (name r)]).
Proof.
  intros Hon Hbad. run_reactor. now rewrite Hon, Hbad.
Qed.

(** [Receive] never changes the reactor when no sync is in progress and the
    message is not a request: only requests reach the application, only an
    active syncer is fed. *)
Lemma Receive_frame_idle (r : Reactor) (e : p2p.Envelope) :
  syncer_ r = None ->
  is_request (p2p.Message e) = false ->
  state_of (Receive e r) = r.
Proof.
  intros Hidle Hreq. run_reactor.
  destruct (running r); [|reflexivity]. simpl.
  destruct (validateMsg (p2p.Message e)); [reflexivity|].
  destruct (p2p.ChannelID e =? SnapshotChannel)%Z;
    [|destruct (p2p.ChannelID e =? ChunkChannel)%Z];
    destruct (p2p.Message e); try discriminate; simpl;
    rewrite ?Hidle; reflexivity.
Qed.

(** On a request, [Receive] does not look at the syncer field. *)
Lemma Receive_request_any_syncer
      (r : Reactor) (e : p2p.Envelope) (s : option syncer) :
  is_request (p2p.Message e) = true ->
  Receive e (set_syncer r s)
  = (tt, set_syncer (state_of (Receive e r)) s, trace_of (Receive e r)).
Proof.
  intros Hreq. run_reactor.
  destruct (running r); [|reflexivity]. simpl.
  destruct (validateMsg (p2p.Message e)); [reflexivity|].
  destruct (p2p.ChannelID e =? SnapshotChannel)%Z;
    [|destruct (p2p.ChannelID e =? ChunkChannel)%Z];
    destruct (p2p.Message e); try discriminate; simpl; try reflexivity.
  - destruct (ListSnapshots (conn r)) as [[l|err] app']; simpl;
      [|reflexivity].
    rewrite !(for_range_emit2
             (fun _ => Logger_Debug "Advertising snapshot")
             (fun x => Peer_Send (p2p.Src e)
                {| p2p.Src := Peer_nil;
                   p2p.ChannelID := p2p.ChannelID e;
                   p2p.Message :=
                     ssproto.SnapshotsResponse
                       (snapshot.Height x) (snapshot.Format x)
                       (snapshot.Chunks x) (snapshot.Hash x)
                       (snapshot.Metadata x) |})).
    reflexivity.
  - now destruct (LoadSnapshotChunk (conn r) _) as [[c|err] app'].
Qed.

(** C3, as amended. A [ChunkRequest] (Height, Format, Index) that passes
    validation and arrives on the chunk channel at a running reactor with no
    sync in progress makes the reactor call [LoadSnapshotChunk] with exactly
    (Height, Format, Index); if the call succeeds the reactor sends the
    requesting peer, on the chunk channel, a [ChunkResponse] with the same
    (Height, Format, Index), the chunk returned, and [Missing] true exactly
    when that chunk is nil; if the call fails nothing is sent. *)
Theorem Receive_ChunkRequest
        (r : Reactor) (e : p2p.Envelope) (Height Format Index : N)
        (resp : result bytes) (app' : App) :
  running r = true ->
  validateMsg (p2p.Message e) = None ->
  p2p.ChannelID e = ChunkChannel ->
  p2p.Message e = ssproto.ChunkRequest Height Format Index ->
  syncer_ r = None ->
  let req := {| abci.rHeight := Height; abci.rFormat := Format;
                abci.rChunk := Index |} in
  LoadSnapshotChunk (conn r) req = (resp, app') ->
  exists t,
    Receive e r
    = (tt, set_conn r app',
       Logger_Debug "Received chunk request"
       :: conn_LoadSnapshotChunk req :: t) /\
    (forall resp_Chunk,
        resp = Ok resp_Chunk ->
        exists Missing,
          (Missing = true <-> resp_Chunk = None) /\
          t = [Logger_Debug "Sending chunk";
               Peer_Send (p2p.Src e)
                 {| p2p.Src := Peer_nil;
                    p2p.ChannelID := ChunkChannel;
                    p2p.Message :=
                      ssproto.ChunkResponse Height Format Index
                        resp_Chunk Missing |}]) /\
    (forall err, resp = Err err -> t = [Logger_Error "Failed to load chunk"]).
Proof.
  intros Hon Hok Hch Hmsg _ req Hload. run_reactor.
  rewrite Hon, Hok, Hch, Hmsg. simpl. fold req. rewrite Hload.
  destruct resp as [resp_Chunk|err]; simpl; eexists;
    (split; [reflexivity|]); split; try discriminate.
  - intros c [= <-]. exists (is_nil resp_Chunk). split; [|reflexivity].
    destruct resp_Chunk; simpl; split; intros; congruence.
  - reflexivity.
Qed.

(** C4, as amended. A [SnapshotsRequest] that passes validation and arrives
    on the snapshot channel at a running reactor, when [ListSnapshots]
    succeeds, is answered with one [SnapshotsResponse] per advertised
    snapshot, sent to the requesting peer on the snapshot channel with the
    five fields of the snapshot copied; the advertised snapshots are the
    first [recentSnapshots] (10) of the application's list sorted by
    descending Height, then descending Format (snapshots that agree on both
    come in an order the sort does not determine). *)
Theorem Receive_SnapshotsRequest
        (r : Reactor) (e : p2p.Envelope)
        (snapshots : list abci.Snapshot) (app' : App) :
  running r = true ->
  validateMsg (p2p.Message e) = None ->
  p2p.ChannelID e = SnapshotChannel ->
  p2p.Message e = ssproto.SnapshotsRequest ->
  ListSnapshots (conn r) = (Ok snapshots, app') ->
  exists sorted advertised,
    Permutation sorted snapshots /\
    StronglySorted newer_or_equal sorted /\
    advertised = firstn recentSnapshots sorted /\
    (List.length advertised <= 10)%nat /\
    Receive e r
    = (tt, set_conn r app',
       conn_ListSnapshots
       :: flat_map (fun s => [Logger_Debug "Advertising snapshot";
                              Peer_Send (p2p.Src e)
                                        (advertise SnapshotChannel s)])
                   advertised).
Proof.
  intros Hon Hok Hch Hmsg Hlist.
  exists (sort_Slice snapshot_less snapshots),
         (firstn recentSnapshots (sort_Slice snapshot_less snapshots)).
  split; [apply sort_Slice_perm|].
  split; [apply sorted_descending|].
  split; [reflexivity|].
  split; [apply firstn_recent_length|].
  run_reactor. rewrite Hon, Hok, Hch, Hmsg. simpl. rewrite Hlist. simpl.
  rewrite collect_recent_spec. cbn [app].
  rewrite Nat.sub_0_r.
  rewrite (for_range_emit2
             (fun _ => Logger_Debug "Advertising snapshot")
             (fun x => Peer_Send (p2p.Src e)
                {| p2p.Src := Peer_nil;
                   p2p.ChannelID := SnapshotChannel;
                   p2p.Message :=
                     ssproto.SnapshotsResponse
                       (snapshot.Height x) (snapshot.Format x)
                       (snapshot.Chunks x) (snapshot.Hash x)
                       (snapshot.Metadata x) |})).
  f_equal. f_equal.
  induction (firstn recentSnapshots (sort_Slice snapshot_less snapshots))
    as [|x rest IH]; simpl; [reflexivity|].
  now rewrite IH.
Qed.

(** C5, as amended. While the reactor is running, an envelope whose message
    fails validation makes the reactor stop the sending peer for that error
    and do nothing else: the reactor and the application are unchanged,
    nothing is forwarded to the syncer and nothing is sent. *)
Theorem Receive_invalid_stops_peer
        (r : Reactor) (e : p2p.Envelope) (err : error) :
  running r = true ->
  validateMsg (p2p.Message e) = Some err ->
  Receive e r
  = (tt, r, [Logger_Error "Invalid message";
             Switch_StopPeerForError (p2p.Src e) err (name r)]).
Proof. apply Receive_invalid. Qed.

(** C7, as amended. [GetChannels] lists exactly two channels: the snapshot
    channel, 0x60, with receive capacity [snapshotMsgSize], and the chunk
    channel, 0x61, with receive capacity [chunkMsgSize].  A message on any
    other channel never changes the reactor or the application.  At a
    running reactor, one that passes validation is ignored with nothing but
    the line "Received message on invalid channel" in the log, and one that
    fails validation gets its sender stopped for the validation error, as on
    the two channels; a reactor that is not running drops either without a
    trace. *)
Theorem channels (r : Reactor) (e : p2p.Envelope) :
  GetChannels
  = [ {| p2p.ID := 0x60; p2p.Priority := 5; p2p.SendQueueCapacity := 10;
         p2p.RecvMessageCapacity := snapshotMsgSize |};
      {| p2p.ID := 0x61; p2p.Priority := 3; p2p.SendQueueCapacity := 10;
         p2p.RecvMessageCapacity := chunkMsgSize |} ] /\
  (p2p.ChannelID e <> 0x60%Z -> p2p.ChannelID e <> 0x61%Z ->
   state_of (Receive e r) = r /\
   (validateMsg (p2p.Message e) = None ->
    trace_of (Receive e r)
    = if running r
      then [Logger_Error "Received message on invalid channel %x"]
      else []) /\
   (forall err,
       validateMsg (p2p.Message e) = Some err ->
       trace_of (Receive e r)
       = if running r
         then [Logger_Error "Invalid message";
               Switch_StopPeerForError (p2p.Src e) err (name r)]
         else [])).
Proof.
  split; [reflexivity|]. intros H60 H61.
  run_reactor.
  destruct (running r); [|split; [reflexivity|split; reflexivity]]. simpl.
  destruct (validateMsg (p2p.Message e)) as [err0|] eqn:Hv.
  { split; [reflexivity|]. split; [discriminate|].
    now intros err [= <-]. }
  destruct (Z.eqb_spec (p2p.ChannelID e) SnapshotChannel) as [E|_];
    [now elim H60|].
  destruct (Z.eqb_spec (p2p.ChannelID e) ChunkChannel) as [E|_];
    [now elim H61|].
  split; [reflexivity|]. split; [reflexivity|discriminate].
Qed.

(** C8, as amended. A [SnapshotsResponse] or [ChunkResponse] received while
    no sync is in progress leaves the reactor and the application unchanged
    ([Receive] returns no error, as always); if it has passed validation it
    is dropped with nothing but log lines in the trace, so the peer is not
    stopped. *)
Theorem Receive_response_idle (r : Reactor) (e : p2p.Envelope) :
  syncer_ r = None ->
  is_response (p2p.Message e) = true ->
  state_of (Receive e r) = r /\
  (validateMsg (p2p.Message e) = None ->
   Forall is_log (trace_of (Receive e r))).
Proof.
  intros Hidle Hresp. split.
  - apply Receive_frame_idle; [exact Hidle|].
    destruct (p2p.Message e); try discriminate; reflexivity.
  - intros Hok. run_reactor.
    destruct (running r); [|constructor]. simpl. rewrite Hok.
    destruct (p2p.ChannelID e =? SnapshotChannel)%Z;
      [|destruct (p2p.ChannelID e =? ChunkChannel)%Z];
      destruct (p2p.Message e); try discriminate; simpl;
      rewrite ?Hidle; repeat constructor.
Qed.

(** C10, as amended. A sync in progress does not suspend the serving of
    requests.  On a [SnapshotsRequest] or [ChunkRequest], [Receive] with a
    syncer in place does what it does with none: same trace, same reactor
    but for the syncer field, which is kept.  A request that passes
    validation and comes on its own channel at a running reactor is served
    from the application while the sync goes on: a [SnapshotsRequest] is
    answered with one [SnapshotsResponse] per snapshot among the first
    [recentSnapshots] of the application's list in descending (Height,
    Format) order, a [ChunkRequest] with the [ChunkResponse] that carries
    the chunk the application returned; when the application fails, that
    is logged and nothing is sent. *)
Theorem Receive_request_ignores_syncer
        (r : Reactor) (e : p2p.Envelope) (s : syncer) :
  is_request (p2p.Message e) = true ->
  syncer_ r = Some s ->
  let idle := Receive e (set_syncer r None) in
  trace_of (Receive e r) = trace_of idle /\
  state_of (Receive e r) = set_syncer (state_of idle) (Some s) /\
  syncer_ (state_of (Receive e r)) = Some s /\
  (running r = true -> validateMsg (p2p.Message e) = None ->
   (p2p.Message e = ssproto.SnapshotsRequest ->
    p2p.ChannelID e = SnapshotChannel ->
    forall (resp : result (list abci.Snapshot)) (app' : App),
      ListSnapshots (conn r) = (resp, app') ->
      (forall snapshots,
          resp = Ok snapshots ->
          exists sorted,
            Permutation sorted snapshots /\
            StronglySorted newer_or_equal sorted /\
            Receive e r
            = (tt, set_conn r app',
               conn_ListSnapshots
               :: flat_map
                    (fun x => [Logger_Debug "Advertising snapshot";
                               Peer_Send (p2p.Src e)
                                         (advertise SnapshotChannel x)])
                    (firstn recentSnapshots sorted))) /\
      (forall err,
          resp = Err err ->
          Receive e r
          = (tt, set_conn r app',
             [conn_ListSnapshots;
              Logger_Error "Failed to fetch snapshots"]))) /\
   (forall Height Format Index,
       p2p.Message e = ssproto.ChunkRequest Height Format Index ->
       p2p.ChannelID e = ChunkChannel ->
       let req := {| abci.rHeight := Height; abci.rFormat := Format;
                     abci.rChunk := Index |} in
       forall (resp : result bytes) (app' : App),
         LoadSnapshotChunk (conn r) req = (resp, app') ->
         (forall resp_Chunk,
             resp = Ok resp_Chunk ->
             Receive e r
             = (tt, set_conn r app',
                [Logger_Debug "Received chunk request";
                 conn_LoadSnapshotChunk req;
                 Logger_Debug "Sending chunk";
                 Peer_Send (p2p.Src e)
                   {| p2p.Src := Peer_nil;
                      p2p.ChannelID := ChunkChannel;
                      p2p.Message :=
                        ssproto.ChunkResponse Height Format Index
                          resp_Chunk (is_nil resp_Chunk) |}])) /\
         (forall err,
             resp = Err err ->
             Receive e r
             = (tt, set_conn r app',
                [Logger_Debug "Received chunk request";
                 conn_LoadSnapshotChunk req;
                 Logger_Error "Failed to load chunk"])))).
Proof.
  intros Hreq Hbusy idle. subst idle.
  assert (Hr : r = set_syncer (set_syncer r None) (Some s))
    by (destruct r; simpl in *; now subst).
  assert (Hstate : state_of (Receive e r)
                   = set_syncer (state_of (Receive e (set_syncer r None)))
                                (Some s))
    by (rewrite Hr at 1; now rewrite Receive_request_any_syncer).
  split; [|split; [exact Hstate|split]].
  - rewrite Hr at 1. now rewrite Receive_request_any_syncer.
  - rewrite Hstate. reflexivity.
  - intros Hon Hok. split.
    + intros Hmsg Hch resp app' Hlist. split.
      * intros snapshots ->.
        exists (sort_Slice snapshot_less snapshots).
        split; [apply sort_Slice_perm|].
        split; [apply sorted_descending|].
        run_reactor. rewrite Hon, Hok, Hch, Hmsg. simpl.
        rewrite Hlist. simpl.
        rewrite collect_recent_spec. cbn [app].
        rewrite Nat.sub_0_r.
        rewrite (for_range_emit2
                   (fun _ => Logger_Debug "Advertising snapshot")
                   (fun x => Peer_Send (p2p.Src e)
                      {| p2p.Src := Peer_nil;
                         p2p.ChannelID := SnapshotChannel;
                         p2p.Message :=
                           ssproto.SnapshotsResponse
                             (snapshot.Height x) (snapshot.Format x)
                             (snapshot.Chunks x) (snapshot.Hash x)
                             (snapshot.Metadata x) |})).
        f_equal. f_equal.
        induction (firstn recentSnapshots
                          (sort_Slice snapshot_less snapshots))
          as [|x rest IH]; simpl; [reflexivity|].
        now rewrite IH.
      * intros err ->. run_reactor. rewrite Hon, Hok, Hch, Hmsg. simpl.
        rewrite Hlist. reflexivity.
    + intros Height Format Index Hmsg Hch req resp app' Hload. split.
      * intros resp_Chunk ->. run_reactor.
        rewrite Hon, Hok, Hch, Hmsg. simpl. fold req. rewrite Hload.
        reflexivity.
      * intros err ->. run_reactor.
        rewrite Hon, Hok, Hch, Hmsg. simpl. fold req. rewrite Hload.
        reflexivity.
Qed.

End Properties.

(** ** More of the reactor *)

(** syncer.go: what the syncer does when a peer comes or goes; whatever it
    sends or logs shows in the trace it returns. *)
Class SyncerPeers `{ET : ExternalTypes} := {
  syncer_AddPeer : syncer -> Peer -> syncer * list Event;
  syncer_RemovePeer : syncer -> Peer -> syncer * list Event
}.

Section PeerMethods.
Context `{ET : ExternalTypes} `{!SyncerPeers}.

Definition emit_all (t : list Event) : M unit := fun r => (tt, r, t).

(** AddPeer implements p2p.Reactor. *)
Definition AddPeer (peer : Peer) : M (option error) :=
  r <- get ;;
  match syncer_ r with
  | Some s =>
      let '(s', t) := syncer_AddPeer s peer in
      modify (fun r => set_syncer r (Some s')) ;;
      emit_all t ;;
      ret None
  | None => ret None
  end.

(** RemovePeer implements p2p.Reactor. *)
Definition RemovePeer (peer : Peer) : M unit :=
  r <- get ;;
  match syncer_ r with
  | Some s =>
      let '(s', t) := syncer_RemovePeer s peer in
      modify (fun r => set_syncer r (Some s')) ;;
      emit_all t
  | None => ret tt
  end.

End PeerMethods.

(** Messages sent and calls of the application, to count them. *)
Definition is_send (ev : Event) : bool :=
  match ev with Peer_Send _ _ => true | _ => false end.

Definition is_app_call (ev : Event) : bool :=
  match ev with
  | conn_ListSnapshots | conn_LoadSnapshotChunk _ => true
  | _ => false
  end.

(** The events by which a list of snapshots is advertised to [p]. *)
Definition advertisement (p : Peer) (ch : Z) (l : list snapshot.t)
  : list Event :=
  flat_map (fun x =>
    [Logger_Debug "Advertising snapshot";
     Peer_Send p
       {| p2p.Src := Peer_nil;
          p2p.ChannelID := ch;
          p2p.Message :=
            ssproto.SnapshotsResponse (snapshot.Height x)
              (snapshot.Format x) (snapshot.Chunks x)
              (snapshot.Hash x) (snapshot.Metadata x) |}]) l.

(** The p2p layer at work: an envelope sent by [from] reaches the other
    side with [from] as its source, on the same channel, with the same
    message. *)
Definition deliver (from : Peer) (env : p2p.Envelope) : p2p.Envelope :=
  {| p2p.Src := from;
     p2p.ChannelID := p2p.ChannelID env;
     p2p.Message := p2p.Message env |}.


Section Behaviour.
Context `{ET : ExternalTypes} `{!AppConnSnapshot} `{MS : Messages}
        `{GS : GoSort} `{!SyncerAPI}.

Opaque recentSnapshots.

Lemma for_range_pair {A} (f g : A -> Event) (l : list A) (r : Reactor) :
  for_range l (fun x r0 => (tt, r0, [f x; g x])) r
  = (tt, r, flat_map (fun x => [f x; g x]) l).
Proof.
  induction l as [|x rest IH]; simpl; [reflexivity|].
  unfold bind. rewrite IH. reflexivity.
Qed.

Ltac receive_cases r e :=
  run_reactor;
  destruct (running r) eqn:?Hrun; simpl;
  [ destruct (validateMsg (p2p.Message e)) eqn:?Hvalid; simpl;
    [ | destruct (p2p.ChannelID e =? SnapshotChannel)%Z eqn:?Hsnap;
        [ | destruct (p2p.ChannelID e =? ChunkChannel)%Z eqn:?Hchunk ];
        destruct (p2p.Message e) eqn:?Hmsg; simpl;
        try (destruct (syncer_ r) eqn:?Hsyncer; simpl);
        try (destruct (ListSnapshots (conn r)) as [[?l|?err] ?app'] eqn:?Hlist;
             simpl; rewrite ?collect_recent_spec; cbn [app];
             rewrite ?Nat.sub_0_r; rewrite ?for_range_pair; simpl);
        try (match goal with
             | |- context [LoadSnapshotChunk ?a ?q] =>
                 destruct (LoadSnapshotChunk a q) as [[?chunk|?err] ?app']
                          eqn:?Hload; simpl
             end);
        try (match goal with
             | |- context [AddSnapshot ?s ?p ?x] =>
                 destruct (AddSnapshot s p x) as [[?ok [?err|]] ?s'] eqn:?Hadd;
                 simpl
             end);
        try (match goal with
             | |- context [AddChunk ?s ?c] =>
                 destruct (AddChunk s c) as [[?ok [?err|]] ?s'] eqn:?Hadd;
                 simpl
             end) ]
  | ].


(** X1. [Receive] never starts or ends a sync and never touches the
    reactor's own settings: whether it runs, its name, configuration,
    directory and gauge stay as they were, and the syncer field is nil
    afterwards exactly when it was nil before. *)
Theorem Receive_keeps_reactor (r : Reactor) (e : p2p.Envelope) :
  let r' := state_of (Receive e r) in
  running r' = running r /\ name r' = name r /\ cfg r' = cfg r /\
  tempDir r' = tempDir r /\ Syncing r' = Syncing r /\
  (syncer_ r' = None <-> syncer_ r = None).
Proof.
  cbv zeta. receive_cases r e;
    repeat split; intros; try reflexivity; try congruence; try discriminate.
Qed.

(** X2. Whatever [Receive] sends goes to the peer the envelope came from, on
    the channel it came on, and is a response; [Receive] never broadcasts. *)
Theorem Receive_answers_sender (r : Reactor) (e : p2p.Envelope) (ev : Event) :
  In ev (trace_of (Receive e r)) ->
  match ev with
  | Peer_Send p env =>
      p = p2p.Src e /\ p2p.ChannelID env = p2p.ChannelID e /\
      is_response (p2p.Message env) = true
  | Switch_Broadcast _ => False
  | _ => True
  end.
Proof.
  receive_cases r e; intros Hin;
    repeat match goal with
           | H : _ \/ _ |- _ => destruct H as [H|H]
           | H : False |- _ => destruct H
           | H : In _ (flat_map _ _) |- _ =>
               apply in_flat_map in H; destruct H as [x [_ H]]; simpl in H
           | H : _ = ev |- _ => subst ev
           end;
    try exact I; repeat split.
  all: simpl; symmetry; now apply Z.eqb_eq.
Qed.

Lemma advertisement_counts (p : Peer) (ch : Z) (l : list snapshot.t) :
  List.length (filter is_send (advertisement p ch l)) = List.length l /\
  filter is_app_call (advertisement p ch l) = [].
Proof.
  induction l as [|x rest [IH1 IH2]]; simpl.
  - now split.
  - now rewrite IH1, IH2.
Qed.

(** X3. One envelope costs at most ten messages sent and at most one call
    of the application, and none of either unless it carries a request. *)
Theorem Receive_bounded_work (r : Reactor) (e : p2p.Envelope) :
  (List.length (filter is_send (trace_of (Receive e r))) <= 10)%nat /\
  (List.length (filter is_app_call (trace_of (Receive e r))) <= 1)%nat /\
  (is_request (p2p.Message e) = false ->
   filter is_send (trace_of (Receive e r)) = [] /\
   filter is_app_call (trace_of (Receive e r)) = []).
Proof.
  receive_cases r e;
    try (match goal with
         | |- context [flat_map _ ?l] =>
             change (flat_map _ l)
               with (advertisement (p2p.Src e) (p2p.ChannelID e) l);
             destruct (advertisement_counts (p2p.Src e) (p2p.ChannelID e) l)
               as [-> ->]
         end);
    repeat split; intros; simpl; try lia; try discriminate;
    try reflexivity.
  all: rewrite length_map; apply firstn_recent_length.
Qed.

(** X4. [Receive] stops a peer in one case only: the reactor is running and
    the message of the envelope fails validation; it is then the sender that
    is stopped, for the error of the validator.  An error of the application
    or of the syncer never gets a peer stopped. *)
Theorem Receive_stops_peer_iff
        (r : Reactor) (e : p2p.Envelope) (p : Peer) (err : error)
        (reactor : string) :
  In (Switch_StopPeerForError p err reactor) (trace_of (Receive e r)) <->
  running r = true /\ validateMsg (p2p.Message e) = Some err /\
  p = p2p.Src e /\ reactor = name r.
Proof.
  receive_cases r e; split;
    try (intros [? [? ?]]; discriminate);
    intros Hin;
    repeat match goal with
           | H : _ \/ _ |- _ => destruct H as [H|H]
           | H : False |- _ => destruct H
           | H : In _ (flat_map _ _) |- _ =>
               apply in_flat_map in H; destruct H as [x [_ H]]; simpl in H
           | H : _ = Switch_StopPeerForError _ _ _ |- _ =>
               first [discriminate H | injection H as <- <- <-]
           end;
    try (repeat split; reflexivity).
  destruct Hin as [_ [[= <-] [-> ->]]]. right. left. reflexivity.
Qed.

(** A run of [Receive] on a validated [SnapshotsResponse] while a sync is
    in progress. *)
Lemma Receive_SnapshotsResponse_run
        (r : Reactor) (e : p2p.Envelope) (s s' : syncer)
        (Height Format Chunks : N) (Hash Metadata : bytes)
        (ok : bool) (err : option error) :
  running r = true ->
  validateMsg (p2p.Message e) = None ->
  p2p.ChannelID e = SnapshotChannel ->
  p2p.Message e
  = ssproto.SnapshotsResponse Height Format Chunks Hash Metadata ->
  syncer_ r = Some s ->
  let snap := {| snapshot.Height := Height; snapshot.Format := Format;
                 snapshot.Chunks := Chunks; snapshot.Hash := Hash;
                 snapshot.Metadata := Metadata |} in
  AddSnapshot s (p2p.Src e) snap = (ok, err, s') ->
  Receive e r
  = (tt, set_syncer r (Some s'),
     [Logger_Debug "Received snapshot"; syncer_AddSnapshot (p2p.Src e) snap]
     ++ match err with
        | Some _ => [Logger_Error "Failed to add snapshot"]
        | None => []
        end).
Proof.
  intros Hon Hok Hch Hmsg Hs snap Hadd. run_reactor.
  rewrite Hon, Hok, Hch, Hmsg. simpl. rewrite Hs. simpl. fold snap.
  rewrite Hadd. now destruct err.
Qed.

(** A run of [Receive] on a validated [ChunkResponse] while a sync is in
    progress. *)
Lemma Receive_ChunkResponse_run
        (r : Reactor) (e : p2p.Envelope) (s s' : syncer)
        (Height Format Index : N) (Chunk : bytes) (Missing : bool)
        (ok : bool) (err : option error) :
  running r = true ->
  validateMsg (p2p.Message e) = None ->
  p2p.ChannelID e = ChunkChannel ->
  p2p.Message e = ssproto.ChunkResponse Height Format Index Chunk Missing ->
  syncer_ r = Some s ->
  let c := {| chunk.Height := Height; chunk.Format := Format;
              chunk.Index := Index; chunk.Chunk := Chunk;
              chunk.Sender := Peer_ID (p2p.Src e) |} in
  AddChunk s c = (ok, err, s') ->
  Receive e r
  = (tt, set_syncer r (Some s'),
     [Logger_Debug "Received chunk, adding to sync"; syncer_AddChunk c]
     ++ match err with
        | Some _ => [Logger_Error "Failed to add chunk"]
        | None => []
        end).
Proof.
  intros Hon Hok Hch Hmsg Hs c Hadd. run_reactor.
  rewrite Hon, Hok, Hch, Hmsg. simpl. rewrite Hs. simpl. fold c.
  rewrite Hadd. now destruct err.
Qed.

(** X5. While a sync is in progress, a [SnapshotsResponse] that passed
    validation and came on the snapshot channel is handed to the syncer with
    its five fields and its sender; an error of the syncer is logged and
    that is all. *)
Theorem Receive_SnapshotsResponse_syncing
        (r : Reactor) (e : p2p.Envelope) (s s' : syncer)
        (Height Format Chunks : N) (Hash Metadata : bytes)
        (ok : bool) (err : option error) :
  running r = true ->
  validateMsg (p2p.Message e) = None ->
  p2p.ChannelID e = SnapshotChannel ->
  p2p.Message e
  = ssproto.SnapshotsResponse Height Format Chunks Hash Metadata ->
  syncer_ r = Some s ->
  let snap := {| snapshot.Height := Height; snapshot.Format := Format;
                 snapshot.Chunks := Chunks; snapshot.Hash := Hash;
                 snapshot.Metadata := Metadata |} in
  AddSnapshot s (p2p.Src e) snap = (ok, err, s') ->
  Receive e r
  = (tt, set_syncer r (Some s'),
     [Logger_Debug "Received snapshot"; syncer_AddSnapshot (p2p.Src e) snap]
     ++ match err with
        | Some _ => [Logger_Error "Failed to add snapshot"]
        | None => []
        end).
Proof.
  intros Hon Hok Hch Hmsg Hs snap Hadd. run_reactor.
  rewrite Hon, Hok, Hch, Hmsg. simpl. rewrite Hs. simpl. fold snap.
  rewrite Hadd. now destruct err.
Qed.

(** X6. While a sync is in progress, a [ChunkResponse] that passed
    validation and came on the chunk channel is handed to the syncer as a
    chunk with its indices and bytes and the ID of its sender; the [Missing]
    flag is not passed on, and an error of the syncer is logged and that is
    all. *)
Theorem Receive_ChunkResponse_syncing
        (r : Reactor) (e : p2p.Envelope) (s s' : syncer)
        (Height Format Index : N) (Chunk : bytes) (Missing : bool)
        (ok : bool) (err : option error) :
  running r = true ->
  validateMsg (p2p.Message e) = None ->
  p2p.ChannelID e = ChunkChannel ->
  p2p.Message e = ssproto.ChunkResponse Height Format Index Chunk Missing ->
  syncer_ r = Some s ->
  let c := {| chunk.Height := Height; chunk.Format := Format;
              chunk.Index := Index; chunk.Chunk := Chunk;
              chunk.Sender := Peer_ID (p2p.Src e) |} in
  AddChunk s c = (ok, err, s') ->
  Receive e r
  = (tt, set_syncer r (Some s'),
     [Logger_Debug "Received chunk, adding to sync"; syncer_AddChunk c]
     ++ match err with
        | Some _ => [Logger_Error "Failed to add chunk"]
        | None => []
        end).
Proof.
  intros Hon Hok Hch Hmsg Hs c Hadd. run_reactor.
  rewrite Hon, Hok, Hch, Hmsg. simpl. rewrite Hs. simpl. fold c.
  rewrite Hadd. now destruct err.
Qed.

(** A run of [Receive] on a validated [SnapshotsRequest] that came on the
    snapshot channel. *)
Lemma Receive_SnapshotsRequest_run (r : Reactor) (e : p2p.Envelope) :
  running r = true ->
  validateMsg (p2p.Message e) = None ->
  p2p.ChannelID e = SnapshotChannel ->
  p2p.Message e = ssproto.SnapshotsRequest ->
  Receive e r
  = (tt, set_conn r (snd (ListSnapshots (conn r))),
     conn_ListSnapshots
     :: match fst (ListSnapshots (conn r)) with
        | Err _ => [Logger_Error "Failed to fetch snapshots"]
        | Ok l =>
            advertisement (p2p.Src e) SnapshotChannel
              (map to_snapshot
                   (firstn recentSnapshots (sort_Slice snapshot_less l)))
        end).
Proof.
  intros Hon Hok Hch Hmsg. run_reactor. rewrite Hon, Hok, Hch, Hmsg. simpl.
  destruct (ListSnapshots (conn r)) as [[l|err] app']; simpl;
    [|reflexivity].
  rewrite collect_recent_spec. cbn [app]. rewrite Nat.sub_0_r.
  now rewrite for_range_pair.
Qed.

Lemma in_advertisement (p p' : Peer) (ch : Z) (l : list snapshot.t)
      (env : p2p.Envelope) :
  In (Peer_Send p' env) (advertisement p ch l) ->
  exists x, In x l /\
    p2p.Message env
    = ssproto.SnapshotsResponse (snapshot.Height x) (snapshot.Format x)
        (snapshot.Chunks x) (snapshot.Hash x) (snapshot.Metadata x) /\
    p2p.ChannelID env = ch.
Proof.
  unfold advertisement. intros Hin. apply in_flat_map in Hin.
  destruct Hin as [x [Hx [Heq|[Heq|[]]]]]; [discriminate Heq|].
  injection Heq as _ <-. now exists x.
Qed.

Lemma In_firstn {A} (n : nat) (l : list A) (a : A) :
  In a (firstn n l) -> In a l.
Proof.
  intros Ha. rewrite <- (firstn_skipn n l). apply in_or_app. now left.
Qed.

(** X7. What a client learns from a server's answer is what the server's
    application listed: an envelope the server sent in answer to a
    [SnapshotsRequest], delivered to a reactor with a sync in progress,
    feeds its syncer a snapshot of the server's list, field for field, in
    the name of the peer it came from. *)
Theorem advertised_snapshot_reaches_syncer
        (server client : Reactor) (request : p2p.Envelope)
        (snapshots : list abci.Snapshot) (app' : App)
        (to me : Peer) (env : p2p.Envelope) (s : syncer) :
  running server = true ->
  validateMsg (p2p.Message request) = None ->
  p2p.ChannelID request = SnapshotChannel ->
  p2p.Message request = ssproto.SnapshotsRequest ->
  ListSnapshots (conn server) = (Ok snapshots, app') ->
  In (Peer_Send to env) (trace_of (Receive request server)) ->
  running client = true ->
  syncer_ client = Some s ->
  validateMsg (p2p.Message env) = None ->
  exists x t,
    In x snapshots /\
    trace_of (Receive (deliver me env) client)
    = Logger_Debug "Received snapshot"
      :: syncer_AddSnapshot me (to_snapshot x) :: t.
Proof.
  intros Hon Hok Hch Hmsg Hlist Hsent Hcli Hs Hvalid.
  rewrite Receive_SnapshotsRequest_run in Hsent by assumption.
  rewrite Hlist in Hsent. unfold trace_of in Hsent. simpl in Hsent.
  destruct Hsent as [Heq|Hsent]; [discriminate Heq|].
  apply in_advertisement in Hsent. destruct Hsent as [x [Hx [Hm Hc]]].
  apply in_map_iff in Hx. destruct Hx as [a [<- Ha]].
  apply In_firstn in Ha.
  destruct (AddSnapshot s me (to_snapshot a)) as [[ok err] s'] eqn:Hadd.
  exists a. eexists. split.
  - apply (Permutation_in a (sort_Slice_perm _ snapshot_less snapshots) Ha).
  - rewrite (Receive_SnapshotsResponse_run client (deliver me env) s s'
               (abci.Height a) (abci.Format a) (abci.Chunks a)
               (abci.Hash a) (abci.Metadata a) ok err);
      try assumption; try reflexivity; try exact Hm.
Qed.

(** A run of [Receive] on a validated [ChunkRequest] that came on the chunk
    channel. *)
Lemma Receive_ChunkRequest_run
      (r : Reactor) (e : p2p.Envelope) (Height Format Index : N) :
  running r = true ->
  validateMsg (p2p.Message e) = None ->
  p2p.ChannelID e = ChunkChannel ->
  p2p.Message e = ssproto.ChunkRequest Height Format Index ->
  let req := {| abci.rHeight := Height; abci.rFormat := Format;
                abci.rChunk := Index |} in
  Receive e r
  = (tt, set_conn r (snd (LoadSnapshotChunk (conn r) req)),
     Logger_Debug "Received chunk request"
     :: conn_LoadSnapshotChunk req
     :: match fst (LoadSnapshotChunk (conn r) req) with
        | Err _ => [Logger_Error "Failed to load chunk"]
        | Ok resp_Chunk =>
            [Logger_Debug "Sending chunk";
             Peer_Send (p2p.Src e)
               {| p2p.Src := Peer_nil;
                  p2p.ChannelID := ChunkChannel;
                  p2p.Message :=
                    ssproto.ChunkResponse Height Format Index
                      resp_Chunk (is_nil resp_Chunk) |}]
        end).
Proof.
  intros Hon Hok Hch Hmsg req. run_reactor. rewrite Hon, Hok, Hch, Hmsg.
  simpl. fold req.
  now destruct (LoadSnapshotChunk (conn r) req) as [[c|err] app'].
Qed.

(** X8. The chunk a client's syncer is fed is the chunk the server's
    application loaded for the request, under the indices of the request and
    the name of the peer it came from. *)
Theorem loaded_chunk_reaches_syncer
        (server client : Reactor) (request : p2p.Envelope)
        (Height Format Index : N)
        (to me : Peer) (env : p2p.Envelope) (s : syncer) :
  running server = true ->
  validateMsg (p2p.Message request) = None ->
  p2p.ChannelID request = ChunkChannel ->
  p2p.Message request = ssproto.ChunkRequest Height Format Index ->
  In (Peer_Send to env) (trace_of (Receive request server)) ->
  running client = true ->
  syncer_ client = Some s ->
  validateMsg (p2p.Message env) = None ->
  exists resp_Chunk t,
    fst (LoadSnapshotChunk (conn server)
           {| abci.rHeight := Height; abci.rFormat := Format;
              abci.rChunk := Index |}) = Ok resp_Chunk /\
    to = p2p.Src request /\
    trace_of (Receive (deliver me env) client)
    = Logger_Debug "Received chunk, adding to sync"
      :: syncer_AddChunk {| chunk.Height := Height; chunk.Format := Format;
                            chunk.Index := Index; chunk.Chunk := resp_Chunk;
                            chunk.Sender := Peer_ID me |} :: t.
Proof.
  intros Hon Hok Hch Hmsg Hsent Hcli Hs Hvalid.
  rewrite (Receive_ChunkRequest_run server request Height Format Index)
    in Hsent by assumption.
  unfold trace_of in Hsent. simpl in Hsent.
  destruct (fst (LoadSnapshotChunk _ _)) as [resp_Chunk|err];
    simpl in Hsent.
  - destruct Hsent as [Heq|[Heq|[Heq|[Heq|[]]]]]; try discriminate Heq.
    injection Heq as <- <-.
    destruct (AddChunk s {| chunk.Height := Height; chunk.Format := Format;
                            chunk.Index := Index; chunk.Chunk := resp_Chunk;
                            chunk.Sender := Peer_ID me |})
      as [[ok err] s'] eqn:Hadd.
    exists resp_Chunk. eexists. split; [reflexivity|]. split; [reflexivity|].
    rewrite (Receive_ChunkResponse_run client _ s s' Height Format Index
               resp_Chunk (is_nil resp_Chunk) ok err);
      try assumption; reflexivity.
  - destruct Hsent as [Heq|[Heq|[Heq|[]]]]; discriminate Heq.
Qed.

(** X9. When the application fails to list its snapshots the failure is
    logged, and when it lists none nothing more happens: either way the peer
    that asked is sent nothing and is not stopped. *)
Theorem nothing_to_advertise (r : Reactor) (e : p2p.Envelope) :
  running r = true ->
  validateMsg (p2p.Message e) = None ->
  p2p.ChannelID e = SnapshotChannel ->
  p2p.Message e = ssproto.SnapshotsRequest ->
  (forall err app',
      ListSnapshots (conn r) = (Err err, app') ->
      Receive e r
      = (tt, set_conn r app',
         [conn_ListSnapshots; Logger_Error "Failed to fetch snapshots"])) /\
  (forall app',
      ListSnapshots (conn r) = (Ok [], app') ->
      Receive e r = (tt, set_conn r app', [conn_ListSnapshots])).
Proof.
  intros Hon Hok Hch Hmsg. split.
  - intros err app' Hlist.
    rewrite Receive_SnapshotsRequest_run by assumption. now rewrite Hlist.
  - intros app' Hlist.
    rewrite Receive_SnapshotsRequest_run by assumption. rewrite Hlist.
    simpl. 
    assert (Hnil : sort_Slice snapshot_less (@nil abci.Snapshot) = []).
    { apply Permutation_nil. apply Permutation_sym, sort_Slice_perm. }
    rewrite Hnil. now rewrite firstn_nil.
Qed.

Lemma recentSnapshots_is_10 : recentSnapshots = 10%nat.
Proof. reflexivity. Qed.

Lemma StronglySorted_app_inv {A} (R : A -> A -> Prop) (l1 l2 : list A) a b :
  StronglySorted R (l1 ++ l2) -> In a l1 -> In b l2 -> R a b.
Proof.
  induction l1 as [|x rest IH]; simpl; intros Hs Ha Hb; [destruct Ha|].
  apply StronglySorted_inv in Hs. destruct Hs as [Hs Hall].
  destruct Ha as [<-|Ha].
  - rewrite Forall_forall in Hall. apply Hall, in_or_app. now right.
  - now apply IH.
Qed.

(** X10. [recentSnapshots] returns the newest snapshots of the application,
    whatever [n] it is given: ten of them, or all if there are fewer, and
    none that is left out is newer than one that is returned. *)
Theorem recentSnapshots_newest
        (r : Reactor) (n : nat) (snapshots : list abci.Snapshot) (app' : App) :
  ListSnapshots (conn r) = (Ok snapshots, app') ->
  exists sorted,
    Permutation sorted snapshots /\
    Reactor_recentSnapshots n r
    = (Ok (map to_snapshot (firstn 10 sorted)), set_conn r app',
       [conn_ListSnapshots]) /\
    List.length (firstn 10 sorted) = Nat.min 10 (List.length snapshots) /\
    forall a b,
      In a (firstn 10 sorted) -> In b (skipn 10 sorted) ->
      newer_or_equal a b.
Proof.
  intros Hlist. exists (sort_Slice snapshot_less snapshots).
  split; [apply sort_Slice_perm|]. split; [|split].
  - run_reactor. rewrite Hlist. simpl. rewrite collect_recent_spec.
    cbn [app]. now rewrite Nat.sub_0_r, recentSnapshots_is_10.
  - rewrite length_firstn.
    now rewrite (Permutation_length (sort_Slice_perm _ snapshot_less snapshots)).
  - intros a b Ha Hb.
    apply (StronglySorted_app_inv newer_or_equal
             (firstn 10 (sort_Slice snapshot_less snapshots))
             (skipn 10 (sort_Slice snapshot_less snapshots))); trivial.
    rewrite firstn_skipn. apply sorted_descending.
Qed.

(** X11. The comparison [recentSnapshots] hands to [sort.Slice] is a strict
    weak order, as the sort requires: greater Height first, then greater
    Format; two snapshots are left in no determined order exactly when they
    agree on Height and Format. *)
Theorem snapshot_order :
  StrictWeakOrder snapshot_less /\
  (forall a b,
      snapshot_less a b = true <->
      (abci.Height b < abci.Height a)%N \/
      (abci.Height a = abci.Height b /\ (abci.Format b < abci.Format a)%N)) /\
  (forall a b,
      snapshot_less a b = false /\ snapshot_less b a = false <->
      abci.Height a = abci.Height b /\ abci.Format a = abci.Format b).
Proof.
  split; [exact snapshot_less_swo|]. split; [exact snapshot_less_true|].
  intros a b. rewrite !snapshot_less_false. unfold newer_or_equal. lia.
Qed.

(** X12. [Receive] and [GetChannels] agree on the channels: a message that
    passed validation is reported as coming on an invalid channel exactly
    when [GetChannels] does not list its channel. *)
Theorem dispatch_agrees_with_GetChannels (r : Reactor) (e : p2p.Envelope) :
  running r = true ->
  validateMsg (p2p.Message e) = None ->
  (In (Logger_Error "Received message on invalid channel %x")
      (trace_of (Receive e r))
   <-> ~ In (p2p.ChannelID e) (map p2p.ID GetChannels)).
Proof.
  intros Hon Hok. simpl.
  assert (Hadv : forall p ch l,
             ~ In (Logger_Error "Received message on invalid channel %x")
                  (advertisement p ch l)).
  { intros p ch l Hin. apply in_flat_map in Hin.
    destruct Hin as [x [_ [Heq|[Heq|[]]]]]; discriminate Heq. }
  receive_cases r e; try discriminate;
    repeat match goal with
           | Hx : (_ =? _)%Z = true |- _ => apply Z.eqb_eq in Hx
           | Hx : (_ =? _)%Z = false |- _ => apply Z.eqb_neq in Hx
           end;
    (split;
     [ intros Hin Hlisted;
       repeat match goal with
              | Hx : _ \/ _ |- _ => destruct Hx as [Hx|Hx]
              | Hx : False |- _ => destruct Hx
              | Hx : Logger_Error _ = Logger_Error _ |- _ => discriminate Hx
              | Hx : _ = Logger_Error _ |- _ => discriminate Hx
              | Hx : In _ (flat_map _ _) |- _ => now apply Hadv in Hx
              end;
       try congruence
     | intros Hnot; try (exfalso; apply Hnot; now auto);
       try (now left) ]).
Qed.

(** A response that passed validation is dropped with log lines only when
    no sync is in progress. *)
Lemma Receive_response_dropped (r : Reactor) (e : p2p.Envelope) :
  syncer_ r = None ->
  is_response (p2p.Message e) = true ->
  validateMsg (p2p.Message e) = None ->
  Forall is_log (trace_of (Receive e r)).
Proof.
  intros Hidle Hresp Hok. run_reactor.
  destruct (running r); [|constructor]. simpl. rewrite Hok.
  destruct (p2p.ChannelID e =? SnapshotChannel)%Z;
    [|destruct (p2p.ChannelID e =? ChunkChannel)%Z];
    destruct (p2p.Message e); try discriminate; simpl;
    rewrite ?Hidle; repeat constructor.
Qed.

(** X13. Once [Sync] has returned, responses that still come in are
    dropped: the reactor stays as [Sync] left it and only log lines are
    written. *)
Theorem responses_dropped_after_Sync
        (r : Reactor) stateProvider discoveryTime (e : p2p.Envelope) :
  syncer_ r = None ->
  is_response (p2p.Message e) = true ->
  validateMsg (p2p.Message e) = None ->
  let r' := state_of (Sync stateProvider discoveryTime r) in
  state_of (Receive e r') = r' /\ Forall is_log (trace_of (Receive e r')).
Proof.
  intros Hidle Hresp Hok r'.
  assert (Hnil : syncer_ r' = None).
  { subst r'. rewrite Sync_session by exact Hidle.
    now destruct (SyncAny _ _ _ _) as [[[[state commit] err] r2] t]. }
  split.
  - apply Receive_frame_idle; [exact Hnil|].
    destruct (p2p.Message e); try discriminate; reflexivity.
  - now apply Receive_response_dropped.
Qed.
End Behaviour.

Section Peers.
Context `{ET : ExternalTypes} `{!AppConnSnapshot} `{MS : Messages}
        `{GS : GoSort} `{!SyncerAPI} `{!SyncerPeers}.

(** X14. [AddPeer] never fails, and neither [AddPeer] nor [RemovePeer]
    starts or ends a sync.  With no sync in progress both do nothing at
    all, so a peer that connects before [Sync] is called leaves no mark:
    [Sync] runs as if [AddPeer] had not been called.  With a sync in
    progress the peer is passed to the syncer, also when the reactor is not
    running. *)
Theorem peers_reach_the_syncer (r : Reactor) (peer : Peer) :
  value_of (AddPeer peer r) = None /\
  (syncer_ (state_of (AddPeer peer r)) = None <-> syncer_ r = None) /\
  (syncer_ (state_of (RemovePeer peer r)) = None <-> syncer_ r = None) /\
  (syncer_ r = None ->
   AddPeer peer r = (None, r, []) /\
   RemovePeer peer r = (tt, r, []) /\
   forall stateProvider discoveryTime,
     Sync stateProvider discoveryTime (state_of (AddPeer peer r))
     = Sync stateProvider discoveryTime r) /\
  (forall s,
      syncer_ r = Some s ->
      AddPeer peer r
      = (None, set_syncer r (Some (fst (syncer_AddPeer s peer))),
         snd (syncer_AddPeer s peer)) /\
      RemovePeer peer r
      = (tt, set_syncer r (Some (fst (syncer_RemovePeer s peer))),
         snd (syncer_RemovePeer s peer))).
Proof.
  unfold AddPeer, RemovePeer, emit_all, bind, get, modify, ret,
    value_of, state_of.
  destruct (syncer_ r) as [s|] eqn:Hs; simpl.
  - destruct (syncer_AddPeer s peer) as [s1 t1] eqn:Hadd.
    destruct (syncer_RemovePeer s peer) as [s2 t2] eqn:Hrem. simpl.
    split; [reflexivity|]. split; [split; discriminate|].
    split; [split; discriminate|]. split; [discriminate|].
    intros s0 [= <-]. rewrite Hadd, Hrem. simpl. now rewrite app_nil_r.
  - repeat split; intros; try reflexivity; try discriminate; exact Hs.
Qed.

End Peers.

(** ** The reactor at work on the test double *)

Import Mock.

(** Three snapshots held by the application are advertised newest first. *)
Example advertise_newest_first :
  trace_of (Receive (from_alice SnapshotChannel ssproto.SnapshotsRequest) idle)
  = [conn_ListSnapshots;
     Logger_Debug "Advertising snapshot";
     Peer_Send alice (advertise SnapshotChannel (snap 100 2 3));
     Logger_Debug "Advertising snapshot";
     Peer_Send alice (advertise SnapshotChannel (snap 100 1 3));
     Logger_Debug "Advertising snapshot";
     Peer_Send alice (advertise SnapshotChannel (snap 90 2 4))].
Proof. reflexivity. Qed.

(** Of twelve snapshots only the ten newest are advertised. *)
Example advertise_at_most_ten :
  let heights := [1; 2; 3; 4; 5; 6; 7; 8; 9; 10; 11; 12]%N in
  let r := set_conn idle {| app_snapshots := map (fun h => snap h 1 1) heights;
                            app_calls := 0 |} in
  trace_of (Receive (from_alice SnapshotChannel ssproto.SnapshotsRequest) r)
  = conn_ListSnapshots
    :: flat_map (fun h => [Logger_Debug "Advertising snapshot";
                           Peer_Send alice
                             (advertise SnapshotChannel (snap h 1 1))])
                [12; 11; 10; 9; 8; 7; 6; 5; 4; 3]%N.
Proof. vm_compute. reflexivity. Qed.

(** A chunk the application does not have is answered with [Missing]. *)
Example missing_chunk :
  trace_of (Receive (from_alice ChunkChannel (ssproto.ChunkRequest 100 1 3))
                    idle)
  = [Logger_Debug "Received chunk request";
     conn_LoadSnapshotChunk
       {| abci.rHeight := 100; abci.rFormat := 1; abci.rChunk := 3 |};
     Logger_Debug "Sending chunk";
     Peer_Send alice
       {| p2p.Src := Peer_nil; p2p.ChannelID := ChunkChannel;
          p2p.Message := ssproto.ChunkResponse 100 1 3 None true |}].
Proof. reflexivity. Qed.

(** While a sync is in progress a snapshot response is fed to the syncer. *)
Example response_fed_to_syncer :
  trace_of (Receive (from_alice SnapshotChannel
                       (ssproto.SnapshotsResponse 100 1 3 (Some []) None))
                    busy)
  = [Logger_Debug "Received snapshot";
     syncer_AddSnapshot alice
       {| snapshot.Height := 100; snapshot.Format := 1; snapshot.Chunks := 3;
          snapshot.Hash := Some []; snapshot.Metadata := None |}].
Proof. reflexivity. Qed.

(** *** C1 *)

Lemma Sync_rejects_second_session_witness :
  syncer_ busy = Some {| fed_snapshots := []; fed_chunks := [] |} /\
  Sync tt 5 busy = ((0%N, None, Some already_in_progress), busy, []).
Proof.
  split; [reflexivity|].
  apply (Sync_rejects_second_session busy
           {| fed_snapshots := []; fed_chunks := [] |} tt 5).
  reflexivity.
Defined.

(** *** C2 *)

(** C2 as stated fails: a call to [Sync] made while a session is in progress
    returns an error that is of none of the four terminal categories. *)
Lemma Sync_fifth_error :
  exists e,
    snd (value_of (Sync tt 5 busy)) = Some e /\ ~ is_terminal_category e.
Proof.
  exists already_in_progress. split; [reflexivity|].
  intros [c Hc]. discriminate Hc.
Qed.

Lemma Sync_errors_witness :
  snd (value_of (Sync tt 5 idle)) = Some (SyncAny_error DiscoveryExhaustion) /\
  ((syncer_ idle <> None /\
    SyncAny_error DiscoveryExhaustion = already_in_progress) \/
   (syncer_ idle = None /\
    exists c,
      SyncAny_error DiscoveryExhaustion = SyncAny_error c /\
      snd (value_of (SyncAny (newSyncer (cfg idle) tt (tempDir idle)) 5 hook
                             (session_start idle tt))) = Some c)).
Proof.
  split; [reflexivity|].
  apply (Sync_errors idle tt 5 (SyncAny_error DiscoveryExhaustion)).
  reflexivity.
Defined.

(** *** C3 *)

(** C3 as stated fails: with no sync in progress, a [ChunkRequest] that
    comes on the snapshot channel is logged as an unknown message, and one
    that reaches a reactor that is not running is dropped at once; neither
    reaches the application. *)
Lemma ChunkRequest_not_served :
  let m := ssproto.ChunkRequest 100 1 2 in
  let req := {| abci.rHeight := 100; abci.rFormat := 1; abci.rChunk := 2 |} in
  (syncer_ idle = None /\
   Receive (from_alice SnapshotChannel m) idle
   = (tt, idle, [Logger_Error "Received unknown message %T"]) /\
   ~ In (conn_LoadSnapshotChunk req)
        (trace_of (Receive (from_alice SnapshotChannel m) idle))) /\
  (syncer_ stopped = None /\
   Receive (from_alice ChunkChannel m) stopped = (tt, stopped, []) /\
   ~ In (conn_LoadSnapshotChunk req)
        (trace_of (Receive (from_alice ChunkChannel m) stopped))).
Proof.
  cbv zeta. repeat split; try reflexivity.
  - intros [H|[]]. discriminate H.
  - intros [].
Qed.

Lemma Receive_ChunkRequest_witness :
  let e := from_alice ChunkChannel (ssproto.ChunkRequest 100 1 2) in
  let req := {| abci.rHeight := 100; abci.rFormat := 1; abci.rChunk := 2 |} in
  exists t,
    Receive e idle
    = (tt, set_conn idle (served the_app),
       Logger_Debug "Received chunk request"
       :: conn_LoadSnapshotChunk req :: t) /\
    exists Missing,
      (Missing = true <-> Some [Byte.x00] = None) /\
      t = [Logger_Debug "Sending chunk";
           Peer_Send alice
             {| p2p.Src := Peer_nil; p2p.ChannelID := ChunkChannel;
                p2p.Message :=
                  ssproto.ChunkResponse 100 1 2 (Some [Byte.x00]) Missing |}].
Proof.
  cbv zeta.
  destruct (Receive_ChunkRequest idle
              (from_alice ChunkChannel (ssproto.ChunkRequest 100 1 2))
              100 1 2 (Ok (Some [Byte.x00])) (served the_app))
    as [t [Hrun [Hsent _]]]; try reflexivity.
  exists t. split; [exact Hrun|].
  exact (Hsent (Some [Byte.x00]) eq_refl).
Defined.

(** *** C4 *)

(** C4 as stated fails: a [SnapshotsRequest] that comes on the chunk channel
    is logged as an unknown message, and one that reaches a reactor that is
    not running is dropped at once; the application holds three snapshots and
    none is advertised. *)
Lemma SnapshotsRequest_not_served :
  let m := ssproto.SnapshotsRequest in
  List.length (app_snapshots (conn idle)) = 3%nat /\
  Receive (from_alice ChunkChannel m) idle
  = (tt, idle, [Logger_Error "Received unknown message %T"]) /\
  Receive (from_alice SnapshotChannel m) stopped = (tt, stopped, []) /\
  forall peer env,
    ~ In (Peer_Send peer env)
         (trace_of (Receive (from_alice ChunkChannel m) idle)) /\
    ~ In (Peer_Send peer env)
         (trace_of (Receive (from_alice SnapshotChannel m) stopped)).
Proof.
  cbv zeta. repeat split; try reflexivity.
  - intros [H|[]]. discriminate H.
  - intros [].
Qed.

Lemma Receive_SnapshotsRequest_witness :
  exists sorted advertised,
    Permutation sorted (app_snapshots the_app) /\
    StronglySorted newer_or_equal sorted /\
    advertised = firstn recentSnapshots sorted /\
    (List.length advertised <= 10)%nat /\
    Receive (from_alice SnapshotChannel ssproto.SnapshotsRequest) idle
    = (tt, set_conn idle (served the_app),
       conn_ListSnapshots
       :: flat_map (fun s => [Logger_Debug "Advertising snapshot";
                              Peer_Send alice (advertise SnapshotChannel s)])
                   advertised).
Proof.
  apply (Receive_SnapshotsRequest idle
           (from_alice SnapshotChannel ssproto.SnapshotsRequest)
           (app_snapshots the_app) (served the_app));
    reflexivity.
Defined.

(** *** C5 *)

(** C5 as stated fails: a message that fails validation, delivered to a
    reactor that is not running, is dropped before it is validated and the
    peer is not stopped. *)
Lemma invalid_message_not_running :
  let e := from_alice ChunkChannel ssproto.OtherMessage in
  validateMsg (p2p.Message e) = Some (errors_New "unknown message type") /\
  Receive e stopped = (tt, stopped, []) /\
  forall err reactor,
    ~ In (Switch_StopPeerForError alice err reactor)
         (trace_of (Receive e stopped)).
Proof.
  cbv zeta. repeat split. intros err reactor [].
Qed.

Lemma Receive_invalid_stops_peer_witness :
  let e := from_alice ChunkChannel ssproto.OtherMessage in
  Receive e idle
  = (tt, idle,
     [Logger_Error "Invalid message";
      Switch_StopPeerForError alice (errors_New "unknown message type")
                              "StateSync"]).
Proof.
  apply (Receive_invalid_stops_peer idle
           (from_alice ChunkChannel ssproto.OtherMessage)
           (errors_New "unknown message type"));
    reflexivity.
Defined.

(** *** C6 *)

Lemma Sync_broadcasts_then_waits_witness :
  trace_of (Sync tt 5 idle)
  = [Logger_Debug "Requesting snapshots from known peers";
     Switch_Broadcast discovery_request]
    ++ trace_of (SyncAny (newSyncer (cfg idle) tt (tempDir idle)) 5 hook
                         (session_start idle tt)).
Proof.
  apply (proj2 (Sync_broadcasts_then_waits idle tt 5 eq_refl)).
Defined.

(** *** C7 *)

(** C7 as stated fails: a message on channel 0x62 that the validator
    refuses is not just ignored, its sender is stopped. *)
Lemma invalid_message_on_other_channel :
  let e := from_alice 0x62 ssproto.OtherMessage in
  p2p.ChannelID e <> SnapshotChannel /\
  p2p.ChannelID e <> ChunkChannel /\
  Receive e idle
  = (tt, idle,
     [Logger_Error "Invalid message";
      Switch_StopPeerForError alice (errors_New "unknown message type")
                              "StateSync"]) /\
  ~ Forall is_log (trace_of (Receive e idle)).
Proof.
  cbv zeta. split; [discriminate|]. split; [discriminate|].
  split; [reflexivity|].
  intros H. inversion H as [|x l _ Hrest]; subst.
  inversion Hrest as [|y l' Hstop _]; subst. exact Hstop.
Qed.

Lemma channels_witness :
  let valid := from_alice 0x62 (ssproto.ChunkRequest 100 1 2) in
  let invalid := from_alice 0x62 ssproto.OtherMessage in
  state_of (Receive valid busy) = busy /\
  trace_of (Receive valid busy)
  = [Logger_Error "Received message on invalid channel %x"] /\
  state_of (Receive invalid busy) = busy /\
  trace_of (Receive invalid busy)
  = [Logger_Error "Invalid message";
     Switch_StopPeerForError alice (errors_New "unknown message type")
                             "StateSync"] /\
  trace_of (Receive valid stopped) = [].
Proof.
  cbv zeta.
  destruct (proj2 (channels busy
                     (from_alice 0x62 (ssproto.ChunkRequest 100 1 2))))
    as [Hstate [Hvalid _]]; [discriminate | discriminate |].
  destruct (proj2 (channels busy (from_alice 0x62 ssproto.OtherMessage)))
    as [Hstate' [_ Hinvalid]]; [discriminate | discriminate |].
  destruct (proj2 (channels stopped
                     (from_alice 0x62 (ssproto.ChunkRequest 100 1 2))))
    as [_ [Hdropped _]]; [discriminate | discriminate |].
  assert (Hok : validateMsg (ssproto.ChunkRequest 100 1 2) = None)
    by reflexivity.
  assert (Hbad : validateMsg ssproto.OtherMessage
                 = Some (errors_New "unknown message type"))
    by reflexivity.
  split; [exact Hstate|]. split; [exact (Hvalid Hok)|].
  split; [exact Hstate'|]. split; [exact (Hinvalid _ Hbad)|].
  exact (Hdropped Hok).
Defined.

(** *** C8 *)

(** C8 as stated fails: with no sync in progress, a [SnapshotsResponse] that
    the validator refuses (here for its height 0) gets its sender stopped. *)
Lemma invalid_response_stops_peer :
  let e := from_alice SnapshotChannel
             (ssproto.SnapshotsResponse 0 1 3 (Some [Byte.x01]) None) in
  syncer_ idle = None /\
  is_response (p2p.Message e) = true /\
  In (Switch_StopPeerForError alice (errors_New "height cannot be 0")
                              "StateSync")
     (trace_of (Receive e idle)).
Proof.
  cbv zeta. repeat split. right. left. reflexivity.
Qed.


Lemma Receive_response_idle_witness :
  let e := from_alice SnapshotChannel
             (ssproto.SnapshotsResponse 100 1 3 (Some [Byte.x01]) None) in
  state_of (Receive e idle) = idle /\
  Forall is_log (trace_of (Receive e idle)).
Proof.
  cbv zeta.
  destruct (Receive_response_idle idle
              (from_alice SnapshotChannel
                 (ssproto.SnapshotsResponse 100 1 3 (Some [Byte.x01]) None))
              eq_refl eq_refl) as [Hstate Hlog].
  split; [exact Hstate | apply Hlog; reflexivity].
Defined.

(** *** C9 *)

Lemma Sync_returns_to_idle_witness :
  let r' := state_of (Sync tt 5 idle) in
  syncer_ r' = None /\ Syncing r' = 0%Z /\
  snd (value_of (Sync tt 7 r')) <> Some already_in_progress.
Proof.
  cbv zeta.
  destruct (Sync_returns_to_idle idle tt 5 eq_refl) as [Hnil [Hzero Hnext]].
  split; [exact Hnil|]. split; [exact Hzero|].
  exact (proj1 (Hnext tt 7%Z)).
Defined.

(** *** C10 *)

(** C10 as stated fails: in the middle of a sync, a [SnapshotsRequest] that
    comes on the chunk channel and a [ChunkRequest] that comes on the
    snapshot channel are logged as unknown messages and not served (the
    application is not called, nothing is sent), and a [ChunkRequest] the
    validator refuses gets its sender stopped. *)
Lemma request_not_served_during_sync :
  syncer_ busy = Some {| fed_snapshots := []; fed_chunks := [] |} /\
  Receive (from_alice ChunkChannel ssproto.SnapshotsRequest) busy
  = (tt, busy, [Logger_Error "Received unknown message %T"]) /\
  Receive (from_alice SnapshotChannel (ssproto.ChunkRequest 100 1 2)) busy
  = (tt, busy, [Logger_Error "Received unknown message %T"]) /\
  Receive (from_alice ChunkChannel (ssproto.ChunkRequest 0 1 2)) busy
  = (tt, busy,
     [Logger_Error "Invalid message";
      Switch_StopPeerForError alice (errors_New "height cannot be 0")
                              "StateSync"]).
Proof. repeat split. Qed.

Lemma Receive_request_ignores_syncer_witness :
  let chunk_request :=
    from_alice ChunkChannel (ssproto.ChunkRequest 100 1 2) in
  let snapshots_request :=
    from_alice SnapshotChannel ssproto.SnapshotsRequest in
  trace_of (Receive chunk_request busy)
  = trace_of (Receive chunk_request (set_syncer busy None)) /\
  Receive chunk_request busy
  = (tt, set_conn busy (served the_app),
     [Logger_Debug "Received chunk request";
      conn_LoadSnapshotChunk
        {| abci.rHeight := 100; abci.rFormat := 1; abci.rChunk := 2 |};
      Logger_Debug "Sending chunk";
      Peer_Send alice
        {| p2p.Src := Peer_nil;
           p2p.ChannelID := ChunkChannel;
           p2p.Message :=
             ssproto.ChunkResponse 100 1 2 (Some [Byte.x00]) false |}]) /\
  exists sorted,
    Permutation sorted (app_snapshots the_app) /\
    StronglySorted newer_or_equal sorted /\
    Receive snapshots_request busy
    = (tt, set_conn busy (served the_app),
       conn_ListSnapshots
       :: flat_map (fun x => [Logger_Debug "Advertising snapshot";
                              Peer_Send alice (advertise SnapshotChannel x)])
                   (firstn recentSnapshots sorted)).
Proof.
  cbv zeta.
  assert (Hok : validateMsg (ssproto.ChunkRequest 100 1 2) = None)
    by reflexivity.
  assert (Hok' : validateMsg ssproto.SnapshotsRequest = None)
    by reflexivity.
  destruct (Receive_request_ignores_syncer busy
              (from_alice ChunkChannel (ssproto.ChunkRequest 100 1 2))
              {| fed_snapshots := []; fed_chunks := [] |}
              eq_refl eq_refl) as [Htrace [_ [_ Hserved]]].
  destruct (Receive_request_ignores_syncer busy
              (from_alice SnapshotChannel ssproto.SnapshotsRequest)
              {| fed_snapshots := []; fed_chunks := [] |}
              eq_refl eq_refl) as [_ [_ [_ Hserved']]].
  split; [exact Htrace|]. split.
  - exact (proj1 (proj2 (Hserved eq_refl Hok) 100%N 1%N 2%N eq_refl eq_refl
                        (Ok (Some [Byte.x00])) (served the_app) eq_refl)
                 (Some [Byte.x00]) eq_refl).
  - exact (proj1 (proj1 (Hserved' eq_refl Hok') eq_refl eq_refl
                        (Ok (app_snapshots the_app)) (served the_app)
                        eq_refl)
                 (app_snapshots the_app) eq_refl).
Defined.

(** ** More of the reactor, at work on the test double *)

(** The syncer double greets a new peer with a request for its snapshots
    and notes the peers that leave. *)
#[export] Instance mock_peers : SyncerPeers := {|
  syncer_AddPeer := fun s p =>
    (s, [Logger_Debug "Requesting snapshots from peer";
         Peer_Send p discovery_request]);
  syncer_RemovePeer := fun s p =>
    (s, [Logger_Debug "Removing peer from sync"]) |}.

Definition bob : Peer := Peer_of "bob".

Lemma Receive_keeps_reactor_witness :
  let e := from_alice SnapshotChannel
             (ssproto.SnapshotsResponse 100 1 3 (Some [Byte.x01]) None) in
  syncer_ (state_of (Receive e idle)) = None /\
  Syncing (state_of (Receive e busy)) = 1%Z.
Proof.
  cbv zeta. split.
  - apply (proj2 (proj2 (proj2 (proj2 (proj2
             (Receive_keeps_reactor idle
                (from_alice SnapshotChannel
                   (ssproto.SnapshotsResponse 100 1 3 (Some [Byte.x01])
                                              None)))))))).
    reflexivity.
  - apply (proj1 (proj2 (proj2 (proj2 (proj2
             (Receive_keeps_reactor busy
                (from_alice SnapshotChannel
                   (ssproto.SnapshotsResponse 100 1 3 (Some [Byte.x01])
                                              None)))))))).
Defined.

Lemma Receive_answers_sender_witness :
  let e := from_alice ChunkChannel (ssproto.ChunkRequest 100 1 2) in
  let env := {| p2p.Src := Peer_nil; p2p.ChannelID := ChunkChannel;
                p2p.Message :=
                  ssproto.ChunkResponse 100 1 2 (Some [Byte.x00]) false |} in
  In (Peer_Send alice env) (trace_of (Receive e idle)) /\
  alice = p2p.Src e /\ p2p.ChannelID env = p2p.ChannelID e /\
  is_response (p2p.Message env) = true.
Proof.
  cbv zeta.
  assert (Hin : In (Peer_Send alice
                      {| p2p.Src := Peer_nil; p2p.ChannelID := ChunkChannel;
                         p2p.Message :=
                           ssproto.ChunkResponse 100 1 2 (Some [Byte.x00])
                                                 false |})
                   (trace_of (Receive (from_alice ChunkChannel
                                         (ssproto.ChunkRequest 100 1 2))
                                      idle)))
    by (right; right; right; left; reflexivity).
  split; [exact Hin|].
  exact (Receive_answers_sender idle _ _ Hin).
Defined.

Lemma Receive_bounded_work_witness :
  let e := from_alice SnapshotChannel
             (ssproto.SnapshotsResponse 100 1 3 (Some [Byte.x01]) None) in
  filter is_send (trace_of (Receive e busy)) = [] /\
  filter is_app_call (trace_of (Receive e busy)) = [].
Proof.
  cbv zeta.
  apply (proj2 (proj2 (Receive_bounded_work busy
           (from_alice SnapshotChannel
              (ssproto.SnapshotsResponse 100 1 3 (Some [Byte.x01]) None))))).
  reflexivity.
Defined.

Lemma Receive_stops_peer_iff_witness :
  let e := from_alice SnapshotChannel ssproto.OtherMessage in
  In (Switch_StopPeerForError alice (errors_New "unknown message type")
                              "StateSync")
     (trace_of (Receive e busy)).
Proof.
  cbv zeta.
  apply (proj2 (Receive_stops_peer_iff busy
                  (from_alice SnapshotChannel ssproto.OtherMessage)
                  alice (errors_New "unknown message type") "StateSync")).
  repeat split.
Defined.

Lemma Receive_SnapshotsResponse_syncing_witness :
  let e := from_alice SnapshotChannel
             (ssproto.SnapshotsResponse 100 1 3 (Some [Byte.x01]) None) in
  let x := {| snapshot.Height := 100; snapshot.Format := 1;
              snapshot.Chunks := 3; snapshot.Hash := Some [Byte.x01];
              snapshot.Metadata := None |} in
  Receive e busy
  = (tt,
     set_syncer busy (Some {| fed_snapshots := [x]; fed_chunks := [] |}),
     [Logger_Debug "Received snapshot"; syncer_AddSnapshot alice x] ++ []).
Proof.
  cbv zeta.
  apply (Receive_SnapshotsResponse_syncing busy
           (from_alice SnapshotChannel
              (ssproto.SnapshotsResponse 100 1 3 (Some [Byte.x01]) None))
           {| fed_snapshots := []; fed_chunks := [] |}
           _ 100 1 3 (Some [Byte.x01]) None true None);
    reflexivity.
Defined.

Lemma Receive_ChunkResponse_syncing_witness :
  let e := from_alice ChunkChannel
             (ssproto.ChunkResponse 100 1 2 None true) in
  let c := {| chunk.Height := 100; chunk.Format := 1; chunk.Index := 2;
              chunk.Chunk := None; chunk.Sender := "alice" |} in
  Receive e busy
  = (tt,
     set_syncer busy (Some {| fed_snapshots := []; fed_chunks := [c] |}),
     [Logger_Debug "Received chunk, adding to sync"; syncer_AddChunk c]
     ++ []).
Proof.
  cbv zeta.
  apply (Receive_ChunkResponse_syncing busy
           (from_alice ChunkChannel (ssproto.ChunkResponse 100 1 2 None true))
           {| fed_snapshots := []; fed_chunks := [] |}
           _ 100 1 2 None true true None);
    reflexivity.
Defined.

Lemma advertised_snapshot_reaches_syncer_witness :
  exists x t,
    In x (app_snapshots the_app) /\
    trace_of (Receive (deliver bob (advertise SnapshotChannel (snap 100 2 3)))
                      busy)
    = Logger_Debug "Received snapshot"
      :: syncer_AddSnapshot bob (to_snapshot x) :: t.
Proof.
  apply (advertised_snapshot_reaches_syncer idle busy
           (from_alice SnapshotChannel ssproto.SnapshotsRequest)
           (app_snapshots the_app) (served the_app) alice bob
           (advertise SnapshotChannel (snap 100 2 3))
           {| fed_snapshots := []; fed_chunks := [] |});
    try reflexivity.
  right. right. left. reflexivity.
Defined.

Lemma loaded_chunk_reaches_syncer_witness :
  let env := {| p2p.Src := Peer_nil; p2p.ChannelID := ChunkChannel;
                p2p.Message :=
                  ssproto.ChunkResponse 100 1 2 (Some [Byte.x00]) false |} in
  exists resp_Chunk t,
    fst (LoadSnapshotChunk (conn idle)
           {| abci.rHeight := 100; abci.rFormat := 1; abci.rChunk := 2 |})
    = Ok resp_Chunk /\
    alice = alice /\
    trace_of (Receive (deliver bob env) busy)
    = Logger_Debug "Received chunk, adding to sync"
      :: syncer_AddChunk {| chunk.Height := 100; chunk.Format := 1;
                            chunk.Index := 2; chunk.Chunk := resp_Chunk;
                            chunk.Sender := "bob" |} :: t.
Proof.
  cbv zeta.
  apply (loaded_chunk_reaches_syncer idle busy
           (from_alice ChunkChannel (ssproto.ChunkRequest 100 1 2))
           100 1 2 alice bob
           {| p2p.Src := Peer_nil; p2p.ChannelID := ChunkChannel;
              p2p.Message :=
                ssproto.ChunkResponse 100 1 2 (Some [Byte.x00]) false |}
           {| fed_snapshots := []; fed_chunks := [] |});
    try reflexivity.
  right. right. right. left. reflexivity.
Defined.

(** A reactor whose application holds no snapshot. *)
Definition bare : Reactor :=
  set_conn idle {| app_snapshots := []; app_calls := 0 |}.

Lemma nothing_to_advertise_witness :
  Receive (from_alice SnapshotChannel ssproto.SnapshotsRequest) bare
  = (tt, set_conn bare {| app_snapshots := []; app_calls := 1 |},
     [conn_ListSnapshots]).
Proof.
  assert (Hok : validateMsg ssproto.SnapshotsRequest = None)
    by reflexivity.
  apply (proj2 (nothing_to_advertise bare
                  (from_alice SnapshotChannel ssproto.SnapshotsRequest)
                  eq_refl Hok eq_refl eq_refl)).
  reflexivity.
Defined.

Lemma recentSnapshots_newest_witness :
  exists sorted,
    Permutation sorted (app_snapshots the_app) /\
    Reactor_recentSnapshots 2 idle
    = (Ok (map to_snapshot (firstn 10 sorted)),
       set_conn idle (served the_app), [conn_ListSnapshots]) /\
    List.length (firstn 10 sorted)
    = Nat.min 10 (List.length (app_snapshots the_app)) /\
    forall a b,
      In a (firstn 10 sorted) -> In b (skipn 10 sorted) ->
      newer_or_equal a b.
Proof.
  apply (recentSnapshots_newest idle 2 (app_snapshots the_app)
                                (served the_app)).
  reflexivity.
Defined.

Lemma snapshot_order_witness :
  snapshot_less (snap 100 2 3) (snap 100 2 7) = false /\
  snapshot_less (snap 100 2 7) (snap 100 2 3) = false.
Proof.
  apply (proj2 (proj2 (proj2 snapshot_order) (snap 100 2 3) (snap 100 2 7))).
  now split.
Defined.

Lemma dispatch_agrees_with_GetChannels_witness :
  In (Logger_Error "Received message on invalid channel %x")
     (trace_of (Receive (from_alice 0x62 ssproto.SnapshotsRequest) idle)).
Proof.
  assert (Hok : validateMsg ssproto.SnapshotsRequest = None)
    by reflexivity.
  apply (proj2 (dispatch_agrees_with_GetChannels idle
                  (from_alice 0x62 ssproto.SnapshotsRequest)
                  eq_refl Hok)).
  intros [H|[H|[]]]; discriminate H.
Defined.

Lemma responses_dropped_after_Sync_witness :
  let e := from_alice ChunkChannel
             (ssproto.ChunkResponse 100 1 2 (Some [Byte.x00]) false) in
  let r' := state_of (Sync tt 5 idle) in
  state_of (Receive e r') = r' /\ Forall is_log (trace_of (Receive e r')).
Proof.
  apply (responses_dropped_after_Sync idle tt 5
           (from_alice ChunkChannel
              (ssproto.ChunkResponse 100 1 2 (Some [Byte.x00]) false)));
    reflexivity.
Defined.

Lemma peers_reach_the_syncer_witness :
  AddPeer bob idle = (None, idle, []) /\
  RemovePeer bob idle = (tt, idle, []) /\
  Sync tt 5 (state_of (AddPeer bob idle)) = Sync tt 5 idle /\
  AddPeer bob busy
  = (None, busy,
     [Logger_Debug "Requesting snapshots from peer";
      Peer_Send bob discovery_request]).
Proof.
  destruct (peers_reach_the_syncer idle bob) as [_ [_ [_ [Hidle _]]]].
  destruct (Hidle eq_refl) as [Hadd [Hrem Hsync]].
  destruct (peers_reach_the_syncer busy bob) as [_ [_ [_ [_ Hbusy]]]].
  destruct (Hbusy _ eq_refl) as [Hadd' _].
  split; [exact Hadd|]. split; [exact Hrem|]. split; [apply Hsync|].
  exact Hadd'.
Defined.

(** * Commits and their signatures (types/block.go)

    The part of package [types] that stands behind the [*types.Commit] a
    sync returns: size budgets of a block, commit signatures, commits and
    extended commits.  Memoized hashes and the bit array of an extended
    commit are left out.  Go's [int] is taken to be 64 bits wide. *)
Module types.

(** [len(b)] *)
Definition len (b : bytes) : Z :=
  match b with
  | None => 0
  | Some l => Z.of_nat (List.length l)
  end.

(** A [time.Time], as the nanoseconds that separate it from the zero time;
    the location is not represented. *)
Definition Time := Z.

(** [t.IsZero()] *)
Definition Time_IsZero (t : Time) : bool := (t =? 0)%Z.

(** Errors as they are built: [errors.New(text)] and
    [fmt.Errorf(format, args...)], the arguments kept as they are passed. *)
Inductive error :=
| errors_New (text : string)
| fmt_Errorf (format : string) (args : list arg)
with arg :=
| arg_int (z : Z)
| arg_error (e : error)
| arg_address (a : bytes)       (* an Address, printed by its String() *)
| arg_time (t : Time).

(** What makes a call panic. *)
Inductive panic :=
| panic_Sprintf (format : string) (args : list arg)
| panic_index (index : Z) (length : nat).   (* index out of range *)

Inductive outcome (A : Type) :=
| Returns (a : A)
| Panics (p : panic).
Arguments Returns {A} a.
Arguments Panics {A} p.

(** int64 arithmetic wraps around. *)
Definition wrap64 (z : Z) : Z := ((z + 2 ^ 63) mod 2 ^ 64 - 2 ^ 63)%Z.

(** The low eight bits: conversion of an integer to [byte]. *)
Definition to_byte (z : Z) : Z := (z mod 256)%Z.

(** MaxHeaderBytes is a maximum header size. *)
Definition MaxHeaderBytes : Z := 626.
(** MaxOverheadForBlock - maximum overhead to encode a block. *)
Definition MaxOverheadForBlock : Z := 11.
(** Max size of commit without any commitSigs. *)
Definition MaxCommitOverheadBytes : Z := 94.
(** Commit sig size. *)
Definition MaxCommitSigBytes : Z := 109.

(** BlockIDFlag indicates which BlockID the signature is for. *)
Definition BlockIDFlagAbsent : Z := 1.
Definition BlockIDFlagCommit : Z := 2.
Definition BlockIDFlagNil : Z := 3.

Module PartSetHeader.
Record t := {
  Total : Z;        (* uint32 *)
  Hash : bytes }.
End PartSetHeader.

Module BlockID.
Record t := {
  Hash : bytes;
  PartSetHeader : PartSetHeader.t }.
End BlockID.

(** CommitSig is a part of the Vote included in a Commit. *)
Module CommitSig.
Record t := {
  BlockIDFlag : Z;             (* byte *)
  ValidatorAddress : bytes;
  Timestamp : Time;
  Signature : bytes }.
End CommitSig.

(** ExtendedCommitSig contains a commit signature along with its
    corresponding vote extension and vote extension signature. *)
Module ExtendedCommitSig.
Record t := {
  CommitSig : CommitSig.t;
  Extension : bytes;
  ExtensionSignature : bytes }.
End ExtendedCommitSig.

(** Commit contains the evidence that a block was committed by a set of
    validators.  [Signatures] holds the elements of the slice in order, so a
    nil slice and an empty one are the same list; the memoized [hash] and
    [bitArray] are not represented. *)
Module Commit.
Record t := {
  Height : Z;                  (* int64 *)
  Round : Z;                   (* int32 *)
  BlockID : BlockID.t;
  Signatures : list CommitSig.t }.
End Commit.

(** ExtendedCommit is similar to Commit, except that its signatures also
    retain their corresponding vote extensions and vote extension
    signatures.  [ExtendedSignatures] holds the elements of the slice in
    order; the memoized [bitArray] is not represented. *)
Module ExtendedCommit.
Record t := {
  Height : Z;
  Round : Z;
  BlockID : BlockID.t;
  ExtendedSignatures : list ExtendedCommitSig.t }.
End ExtendedCommit.

(** The fields of a [Vote] that [GetVote] and [GetExtendedVote] fill in. *)
Module Vote.
Record t := {
  Type_ : Z;                   (* Type *)
  Height : Z;
  Round : Z;
  BlockID : BlockID.t;
  Timestamp : Time;
  ValidatorAddress : bytes;
  ValidatorIndex : Z;          (* int32 *)
  Signature : bytes;
  Extension : bytes;
  ExtensionSignature : bytes }.
End Vote.

(** The generated protobuf structs; the flag is a protobuf enum, an int32. *)
Module cmtproto.
Module CommitSig.
Record t := {
  BlockIdFlag : Z;             (* int32 *)
  ValidatorAddress : bytes;
  Timestamp : Time;
  Signature : bytes }.
End CommitSig.
Module ExtendedCommitSig.
Record t := {
  BlockIdFlag : Z;
  ValidatorAddress : bytes;
  Timestamp : Time;
  Signature : bytes;
  Extension : bytes;
  ExtensionSignature : bytes }.
End ExtendedCommitSig.
End cmtproto.

(** Constants and the one method that other files of the module define:
    [crypto.AddressSize], [MaxSignatureSize], [MaxVoteExtensionSize],
    [tmhash.Size], [cmtproto.PrecommitType] and [PartSetHeader.IsZero]. *)
Class Elsewhere := {
  AddressSize : Z;
  MaxSignatureSize : Z;
  MaxVoteExtensionSize : Z;
  tmhash_Size : Z;
  PrecommitType : Z;
  PartSetHeader_IsZero : PartSetHeader.t -> bool
}.

(** [BlockID{}] *)
Definition BlockID_zero : BlockID.t :=
  {| BlockID.Hash := None;
     BlockID.PartSetHeader :=
       {| PartSetHeader.Total := 0; PartSetHeader.Hash := None |} |}.

Definition MaxCommitBytes (valCount : Z) : Z :=
  (* From the repeated commit sig field *)
  let protoEncodingOverhead := 2%Z in
  wrap64 (MaxCommitOverheadBytes
          + wrap64 (wrap64 (MaxCommitSigBytes + protoEncodingOverhead)
                    * valCount)).

(** MaxDataBytes returns the maximum size of block's data.
    XXX: Panics on negative result. *)
Definition MaxDataBytes (maxBytes evidenceBytes valsCount : Z) : outcome Z :=
  let maxDataBytes :=
    wrap64 (wrap64 (wrap64 (wrap64 (maxBytes - MaxOverheadForBlock)
                            - MaxHeaderBytes)
                    - MaxCommitBytes valsCount)
            - evidenceBytes) in
  if (maxDataBytes <? 0)%Z then
    Panics (panic_Sprintf
      "Negative MaxDataBytes. Block.MaxBytes=%d is too small to accommodate header&lastCommit&evidence=%d"
      [arg_int maxBytes;
       arg_int (wrap64 (- wrap64 (maxDataBytes - maxBytes)))])
  else Returns maxDataBytes.

(** MaxDataBytesNoEvidence returns the maximum size of block's data when
    evidence count is unknown (will be assumed to be 0).
    XXX: Panics on negative result. *)
Definition MaxDataBytesNoEvidence (maxBytes valsCount : Z) : outcome Z :=
  let maxDataBytes :=
    wrap64 (wrap64 (wrap64 (maxBytes - MaxOverheadForBlock)
                    - MaxHeaderBytes)
            - MaxCommitBytes valsCount) in
  if (maxDataBytes <? 0)%Z then
    Panics (panic_Sprintf
      "Negative MaxDataBytesNoEvidence. Block.MaxBytes=%d is too small to accommodate header&lastCommit&evidence=%d"
      [arg_int maxBytes;
       arg_int (wrap64 (- wrap64 (maxDataBytes - maxBytes)))])
  else Returns maxDataBytes.

(** NewCommitSigAbsent returns new CommitSig with BlockIDFlagAbsent. Other
    fields are all empty. *)
Definition NewCommitSigAbsent : CommitSig.t :=
  {| CommitSig.BlockIDFlag := BlockIDFlagAbsent;
     CommitSig.ValidatorAddress := None;
     CommitSig.Timestamp := 0%Z;
     CommitSig.Signature := None |}.

(** BlockID returns the Commit's BlockID if CommitSig indicates signing,
    otherwise - empty BlockID. *)
Definition CommitSig_BlockID (cs : CommitSig.t) (commitBlockID : BlockID.t)
  : outcome BlockID.t :=
  if (CommitSig.BlockIDFlag cs =? BlockIDFlagAbsent)%Z then
    Returns BlockID_zero
  else if (CommitSig.BlockIDFlag cs =? BlockIDFlagCommit)%Z then
    Returns commitBlockID
  else if (CommitSig.BlockIDFlag cs =? BlockIDFlagNil)%Z then
    Returns BlockID_zero
  else
    Panics (panic_Sprintf "Unknown BlockIDFlag: %v"
                          [arg_int (CommitSig.BlockIDFlag cs)]).

(** NewExtendedCommitSigAbsent returns new ExtendedCommitSig with
    BlockIDFlagAbsent. Other fields are all empty. *)
Definition NewExtendedCommitSigAbsent : ExtendedCommitSig.t :=
  {| ExtendedCommitSig.CommitSig := NewCommitSigAbsent;
     ExtendedCommitSig.Extension := None;
     ExtendedCommitSig.ExtensionSignature := None |}.

(** ToProto converts CommitSig to protobuf; a nil receiver gives nil. *)
Definition CommitSig_ToProto (cs : option CommitSig.t)
  : option cmtproto.CommitSig.t :=
  match cs with
  | None => None
  | Some cs =>
      Some {| cmtproto.CommitSig.BlockIdFlag := CommitSig.BlockIDFlag cs;
              cmtproto.CommitSig.ValidatorAddress :=
                CommitSig.ValidatorAddress cs;
              cmtproto.CommitSig.Timestamp := CommitSig.Timestamp cs;
              cmtproto.CommitSig.Signature := CommitSig.Signature cs |}
  end.

(** ToProto converts the ExtendedCommitSig to its Protobuf
    representation. *)
Definition ExtendedCommitSig_ToProto (ecs : option ExtendedCommitSig.t)
  : option cmtproto.ExtendedCommitSig.t :=
  match ecs with
  | None => None
  | Some ecs =>
      let cs := ExtendedCommitSig.CommitSig ecs in
      Some {| cmtproto.ExtendedCommitSig.BlockIdFlag :=
                CommitSig.BlockIDFlag cs;
              cmtproto.ExtendedCommitSig.ValidatorAddress :=
                CommitSig.ValidatorAddress cs;
              cmtproto.ExtendedCommitSig.Timestamp := CommitSig.Timestamp cs;
              cmtproto.ExtendedCommitSig.Signature := CommitSig.Signature cs;
              cmtproto.ExtendedCommitSig.Extension :=
                ExtendedCommitSig.Extension ecs;
              cmtproto.ExtendedCommitSig.ExtensionSignature :=
                ExtendedCommitSig.ExtensionSignature ecs |}
  end.

(** Size returns the number of signatures in the commit. *)
Definition Commit_Size (commit : option Commit.t) : Z :=
  match commit with
  | None => 0
  | Some commit => Z.of_nat (List.length (Commit.Signatures commit))
  end.

(** WrappedExtendedCommit wraps a commit as an ExtendedCommit.
    The VoteExtension fields of the resulting value will by nil.
    The slice is made anew with [len(commit.Signatures)] elements and
    filled index by index (in Go it is never nil, also for a nil
    [Signatures]). *)
Definition WrappedExtendedCommit (commit : Commit.t) : ExtendedCommit.t :=
  let cs := map (fun s => {| ExtendedCommitSig.CommitSig := s;
                             ExtendedCommitSig.Extension := None;
                             ExtendedCommitSig.ExtensionSignature := None |})
                (Commit.Signatures commit) in
  {| ExtendedCommit.Height := Commit.Height commit;
     ExtendedCommit.Round := Commit.Round commit;
     ExtendedCommit.BlockID := Commit.BlockID commit;
     ExtendedCommit.ExtendedSignatures := cs |}.

(** ToCommit converts an ExtendedCommit to a Commit by removing all vote
    extension-related fields.  The slice is made anew with
    [len(ec.ExtendedSignatures)] elements and filled index by index (in Go
    it is never nil). *)
Definition ToCommit (ec : ExtendedCommit.t) : Commit.t :=
  let cs := map ExtendedCommitSig.CommitSig
                (ExtendedCommit.ExtendedSignatures ec) in
  {| Commit.Height := ExtendedCommit.Height ec;
     Commit.Round := ExtendedCommit.Round ec;
     Commit.BlockID := ExtendedCommit.BlockID ec;
     Commit.Signatures := cs |}.

(** Size returns the number of signatures in the extended commit. *)
Definition ExtendedCommit_Size (ec : option ExtendedCommit.t) : Z :=
  match ec with
  | None => 0
  | Some ec => Z.of_nat (List.length (ExtendedCommit.ExtendedSignatures ec))
  end.

(** IsCommit returns true if there is at least one signature. *)
Definition ExtendedCommit_IsCommit (ec : ExtendedCommit.t) : bool :=
  negb (Z.of_nat (List.length (ExtendedCommit.ExtendedSignatures ec)) =? 0)%Z.

(** [s[i]] for an int32 index: out of range, it panics. *)
Definition index {A} (s : list A) (i : Z) : outcome A :=
  if (i <? 0)%Z then Panics (panic_index i (List.length s))
  else match nth_error s (Z.to_nat i) with
       | Some x => Returns x
       | None => Panics (panic_index i (List.length s))
       end.

Section Validation.
Context `{EW : Elsewhere}.

(** ValidateBasic performs basic validation. *)
Definition CommitSig_ValidateBasic (cs : CommitSig.t) : option error :=
  let flag := CommitSig.BlockIDFlag cs in
  if negb ((flag =? BlockIDFlagAbsent) || (flag =? BlockIDFlagCommit)
           || (flag =? BlockIDFlagNil))%Z then
    Some (fmt_Errorf "unknown BlockIDFlag: %v" [arg_int flag])
  else if (flag =? BlockIDFlagAbsent)%Z then
    if negb (len (CommitSig.ValidatorAddress cs) =? 0)%Z then
      Some (errors_New "validator address is present")
    else if negb (Time_IsZero (CommitSig.Timestamp cs)) then
      Some (errors_New "time is present")
    else if negb (len (CommitSig.Signature cs) =? 0)%Z then
      Some (errors_New "signature is present")
    else None
  else
    if negb (len (CommitSig.ValidatorAddress cs) =? AddressSize)%Z then
      Some (fmt_Errorf
              "expected ValidatorAddress size to be %d bytes, got %d bytes"
              [arg_int AddressSize;
               arg_int (len (CommitSig.ValidatorAddress cs))])
    (* NOTE: Timestamp validation is subtle and handled elsewhere. *)
    else if (len (CommitSig.Signature cs) =? 0)%Z then
      Some (errors_New "signature is missing")
    else if (MaxSignatureSize <? len (CommitSig.Signature cs))%Z then
      Some (fmt_Errorf "signature is too big (max: %d)"
                       [arg_int MaxSignatureSize])
    else None.

(** FromProto sets a protobuf CommitSig to the given pointer.
    It returns an error if the CommitSig is invalid. *)
Definition CommitSig_FromProto (csp : cmtproto.CommitSig.t)
  : CommitSig.t * option error :=
  let cs := {| CommitSig.BlockIDFlag :=
                 to_byte (cmtproto.CommitSig.BlockIdFlag csp);
               CommitSig.ValidatorAddress :=
                 cmtproto.CommitSig.ValidatorAddress csp;
               CommitSig.Timestamp := cmtproto.CommitSig.Timestamp csp;
               CommitSig.Signature := cmtproto.CommitSig.Signature csp |} in
  (cs, CommitSig_ValidateBasic cs).

(** ValidateBasic checks whether the structure is well-formed. *)
Definition ExtendedCommitSig_ValidateBasic (ecs : ExtendedCommitSig.t)
  : option error :=
  match CommitSig_ValidateBasic (ExtendedCommitSig.CommitSig ecs) with
  | Some err => Some err
  | None =>
      if (CommitSig.BlockIDFlag (ExtendedCommitSig.CommitSig ecs)
          =? BlockIDFlagCommit)%Z then
        if (MaxVoteExtensionSize <? len (ExtendedCommitSig.Extension ecs))%Z
        then Some (fmt_Errorf "vote extension is too big (max: %d)"
                              [arg_int MaxVoteExtensionSize])
        else if (MaxSignatureSize
                 <? len (ExtendedCommitSig.ExtensionSignature ecs))%Z
        then Some (fmt_Errorf
                     "vote extension signature is too big (max: %d)"
                     [arg_int MaxSignatureSize])
        else None
      else if (len (ExtendedCommitSig.ExtensionSignature ecs) =? 0)%Z
              && negb (len (ExtendedCommitSig.Extension ecs) =? 0)%Z then
        Some (errors_New
                "vote extension signature absent on vote with extension")
      else None
  end.

(** EnsureExtensions validates that a vote extensions signature is present
    for this ExtendedCommitSig. *)
Definition EnsureExtension (ecs : ExtendedCommitSig.t) (extEnabled : bool)
  : option error :=
  let cs := ExtendedCommitSig.CommitSig ecs in
  let is_commit := (CommitSig.BlockIDFlag cs =? BlockIDFlagCommit)%Z in
  let who := [arg_address (CommitSig.ValidatorAddress cs);
              arg_time (CommitSig.Timestamp cs)] in
  if extEnabled then
    if is_commit && (len (ExtendedCommitSig.ExtensionSignature ecs) =? 0)%Z
    then Some (fmt_Errorf
      "vote extension signature is missing; validator addr %s, timestamp %v"
      who)
    else if negb is_commit
            && negb (len (ExtendedCommitSig.Extension ecs) =? 0)%Z
    then Some (fmt_Errorf
      "non-commit vote extension present; validator addr %s, timestamp %v"
      who)
    else if negb is_commit
            && negb (len (ExtendedCommitSig.ExtensionSignature ecs) =? 0)%Z
    then Some (fmt_Errorf
      "non-commit vote extension signature present; validator addr %s, timestamp %v"
      who)
    else None
  else
    if negb (len (ExtendedCommitSig.Extension ecs) =? 0)%Z
    then Some (fmt_Errorf
      "vote extension present but extensions disabled; validator addr %s, timestamp %v"
      who)
    else if negb (len (ExtendedCommitSig.ExtensionSignature ecs) =? 0)%Z
    then Some (fmt_Errorf
      "vote extension signature present but extensions disabled; validator addr %s, timestamp %v"
      who)
    else None.

(** FromProto populates the ExtendedCommitSig with values from the given
    Protobuf representation. Returns an error if the ExtendedCommitSig is
    invalid. *)
Definition ExtendedCommitSig_FromProto (ecsp : cmtproto.ExtendedCommitSig.t)
  : ExtendedCommitSig.t * option error :=
  let ecs :=
    {| ExtendedCommitSig.CommitSig :=
         {| CommitSig.BlockIDFlag :=
              to_byte (cmtproto.ExtendedCommitSig.BlockIdFlag ecsp);
            CommitSig.ValidatorAddress :=
              cmtproto.ExtendedCommitSig.ValidatorAddress ecsp;
            CommitSig.Timestamp := cmtproto.ExtendedCommitSig.Timestamp ecsp;
            CommitSig.Signature :=
              cmtproto.ExtendedCommitSig.Signature ecsp |};
       ExtendedCommitSig.Extension :=
         cmtproto.ExtendedCommitSig.Extension ecsp;
       ExtendedCommitSig.ExtensionSignature :=
         cmtproto.ExtendedCommitSig.ExtensionSignature ecsp |} in
  (ecs, ExtendedCommitSig_ValidateBasic ecs).

(** IsZero returns true if this is the BlockID of a nil block. *)
Definition BlockID_IsZero (blockID : BlockID.t) : bool :=
  (len (BlockID.Hash blockID) =? 0)%Z
  && PartSetHeader_IsZero (BlockID.PartSetHeader blockID).

(** IsComplete returns true if this is a valid BlockID of a non-nil
    block. *)
Definition BlockID_IsComplete (blockID : BlockID.t) : bool :=
  (len (BlockID.Hash blockID) =? tmhash_Size)%Z
  && (0 <? PartSetHeader.Total (BlockID.PartSetHeader blockID))%Z
  && (len (PartSetHeader.Hash (BlockID.PartSetHeader blockID))
      =? tmhash_Size)%Z.

(** The loop over the signatures in [Commit.ValidateBasic]; [i] is the
    index of the head of [sigs]. *)
Fixpoint validate_sigs (i : Z) (sigs : list CommitSig.t) : option error :=
  match sigs with
  | [] => None
  | commitSig :: rest =>
      match CommitSig_ValidateBasic commitSig with
      | Some err =>
          Some (fmt_Errorf "wrong CommitSig #%d: %v"
                           [arg_int i; arg_error err])
      | None => validate_sigs (i + 1) rest
      end
  end.

(** ValidateBasic performs basic validation that doesn't involve state
    data. Does not actually check the cryptographic signatures. *)
Definition Commit_ValidateBasic (commit : Commit.t) : option error :=
  if (Commit.Height commit <? 0)%Z then Some (errors_New "negative Height")
  else if (Commit.Round commit <? 0)%Z then Some (errors_New "negative Round")
  else if (1 <=? Commit.Height commit)%Z then
    if BlockID_IsZero (Commit.BlockID commit) then
      Some (errors_New "commit cannot be for nil block")
    else if (Z.of_nat (List.length (Commit.Signatures commit)) =? 0)%Z then
      Some (errors_New "no signatures in commit")
    else validate_sigs 0 (Commit.Signatures commit)
  else None.

(** The loop over the signatures in [ExtendedCommit.ValidateBasic]. *)
Fixpoint validate_extended_sigs (i : Z) (sigs : list ExtendedCommitSig.t)
  : option error :=
  match sigs with
  | [] => None
  | extCommitSig :: rest =>
      match ExtendedCommitSig_ValidateBasic extCommitSig with
      | Some err =>
          Some (fmt_Errorf "wrong ExtendedCommitSig #%d: %v"
                           [arg_int i; arg_error err])
      | None => validate_extended_sigs (i + 1) rest
      end
  end.

(** ValidateBasic checks whether the extended commit is well-formed. Does
    not actually check the cryptographic signatures. *)
Definition ExtendedCommit_ValidateBasic (ec : ExtendedCommit.t)
  : option error :=
  if (ExtendedCommit.Height ec <? 0)%Z then
    Some (errors_New "negative Height")
  else if (ExtendedCommit.Round ec <? 0)%Z then
    Some (errors_New "negative Round")
  else if (1 <=? ExtendedCommit.Height ec)%Z then
    if BlockID_IsZero (ExtendedCommit.BlockID ec) then
      Some (errors_New "extended commit cannot be for nil block")
    else if (Z.of_nat (List.length (ExtendedCommit.ExtendedSignatures ec))
             =? 0)%Z then
      Some (errors_New "no signatures in commit")
    else validate_extended_sigs 0 (ExtendedCommit.ExtendedSignatures ec)
  else None.

(** EnsureExtensions validates that a vote extensions signature is present
    for every ExtendedCommitSig in the ExtendedCommit. *)
Fixpoint ensure_all (sigs : list ExtendedCommitSig.t) (extEnabled : bool)
  : option error :=
  match sigs with
  | [] => None
  | ecs :: rest =>
      match EnsureExtension ecs extEnabled with
      | Some err => Some err
      | None => ensure_all rest extEnabled
      end
  end.

Definition EnsureExtensions (ec : ExtendedCommit.t) (extEnabled : bool)
  : option error :=
  ensure_all (ExtendedCommit.ExtendedSignatures ec) extEnabled.

(** GetVote converts the CommitSig for the given valIdx to a Vote. Commits
    do not contain vote extensions, so the vote extension and vote extension
    signature will not be present in the returned vote.
    Panics if valIdx >= commit.Size(). *)
Definition GetVote (commit : Commit.t) (valIdx : Z) : outcome Vote.t :=
  match index (Commit.Signatures commit) valIdx with
  | Panics p => Panics p
  | Returns commitSig =>
      match CommitSig_BlockID commitSig (Commit.BlockID commit) with
      | Panics p => Panics p
      | Returns blockID =>
          Returns {| Vote.Type_ := PrecommitType;
                     Vote.Height := Commit.Height commit;
                     Vote.Round := Commit.Round commit;
                     Vote.BlockID := blockID;
                     Vote.Timestamp := CommitSig.Timestamp commitSig;
                     Vote.ValidatorAddress :=
                       CommitSig.ValidatorAddress commitSig;
                     Vote.ValidatorIndex := valIdx;
                     Vote.Signature := CommitSig.Signature commitSig;
                     Vote.Extension := None;
                     Vote.ExtensionSignature := None |}
      end
  end.

(** GetExtendedVote converts the ExtendedCommitSig for the given validator
    index to a Vote with a vote extensions.
    It panics if valIndex is out of range. *)
Definition GetExtendedVote (ec : ExtendedCommit.t) (valIndex : Z)
  : outcome Vote.t :=
  match index (ExtendedCommit.ExtendedSignatures ec) valIndex with
  | Panics p => Panics p
  | Returns ecs =>
      let cs := ExtendedCommitSig.CommitSig ecs in
      match CommitSig_BlockID cs (ExtendedCommit.BlockID ec) with
      | Panics p => Panics p
      | Returns blockID =>
          Returns {| Vote.Type_ := PrecommitType;
                     Vote.Height := ExtendedCommit.Height ec;
                     Vote.Round := ExtendedCommit.Round ec;
                     Vote.BlockID := blockID;
                     Vote.Timestamp := CommitSig.Timestamp cs;
                     Vote.ValidatorAddress := CommitSig.ValidatorAddress cs;
                     Vote.ValidatorIndex := valIndex;
                     Vote.Signature := CommitSig.Signature cs;
                     Vote.Extension := ExtendedCommitSig.Extension ecs;
                     Vote.ExtensionSignature :=
                       ExtendedCommitSig.ExtensionSignature ecs |}
      end
  end.

End Validation.

(** ** Properties *)

Lemma wrap64_small (z : Z) :
  (- 2 ^ 63 <= z < 2 ^ 63)%Z -> wrap64 z = z.
Proof.
  intros Hz. unfold wrap64. rewrite Z.mod_small; lia.
Qed.

Lemma wrap64_range (z : Z) : (- 2 ^ 63 <= wrap64 z < 2 ^ 63)%Z.
Proof.
  unfold wrap64.
  pose proof (Z.mod_pos_bound (z + 2 ^ 63) (2 ^ 64) ltac:(lia)). lia.
Qed.

(** Boolean tests on integers, read as propositions. *)
Ltac boolZ :=
  repeat match goal with
         | H : negb _ = true |- _ => apply negb_true_iff in H
         | H : negb _ = false |- _ => apply negb_false_iff in H
         | H : (_ || _)%bool = true |- _ => apply orb_true_iff in H
         | H : (_ || _)%bool = false |- _ =>
             apply orb_false_iff in H; destruct H
         | H : (_ && _)%bool = true |- _ =>
             apply andb_true_iff in H; destruct H
         | H : (_ && _)%bool = false |- _ => apply andb_false_iff in H
         | H : (_ =? _)%Z = true |- _ => apply Z.eqb_eq in H
         | H : (_ =? _)%Z = false |- _ => apply Z.eqb_neq in H
         | H : (_ <? _)%Z = true |- _ => apply Z.ltb_lt in H
         | H : (_ <? _)%Z = false |- _ => apply Z.ltb_ge in H
         | H : (_ <=? _)%Z = true |- _ => apply Z.leb_le in H
         | H : (_ <=? _)%Z = false |- _ => apply Z.leb_gt in H
         end.

Ltac split_ifs :=
  repeat match goal with
         | |- context [if ?b then _ else _] => destruct b eqn:?
         end.

Lemma len_nonneg (b : bytes) : (0 <= len b)%Z.
Proof. destruct b; simpl; lia. Qed.

(** X15. With counts and sizes in their everyday range, a commit of
    [valsCount] signatures is budgeted 94 + 111 * valsCount bytes, and
    [MaxDataBytes] splits the block exactly: what it returns, plus the
    overhead, the header, the commit and the evidence, is [maxBytes]; when
    these leave no room it panics, naming [maxBytes] and the room that was
    needed. *)
Theorem MaxDataBytes_accounts (maxBytes evidenceBytes valsCount : Z) :
  (0 <= valsCount <= 2 ^ 32)%Z ->
  (0 <= evidenceBytes <= 2 ^ 60)%Z ->
  (0 <= maxBytes <= 2 ^ 60)%Z ->
  let need := (MaxOverheadForBlock + MaxHeaderBytes
               + MaxCommitBytes valsCount + evidenceBytes)%Z in
  MaxCommitBytes valsCount = (94 + 111 * valsCount)%Z /\
  ((need <= maxBytes)%Z ->
   MaxDataBytes maxBytes evidenceBytes valsCount
   = Returns (maxBytes - need)%Z) /\
  ((maxBytes < need)%Z ->
   MaxDataBytes maxBytes evidenceBytes valsCount
   = Panics (panic_Sprintf
       "Negative MaxDataBytes. Block.MaxBytes=%d is too small to accommodate header&lastCommit&evidence=%d"
       [arg_int maxBytes; arg_int need])).
Proof.
  intros Hv He Hm need.
  assert (Hc : MaxCommitBytes valsCount = (94 + 111 * valsCount)%Z).
  { unfold MaxCommitBytes, MaxCommitOverheadBytes, MaxCommitSigBytes.
    rewrite (wrap64_small (109 + 2)) by lia.
    rewrite (wrap64_small ((109 + 2) * valsCount)) by lia.
    rewrite wrap64_small by lia. lia. }
  split; [exact Hc|].
  assert (Hd : wrap64 (wrap64 (wrap64 (wrap64 (maxBytes - MaxOverheadForBlock)
                                       - MaxHeaderBytes)
                               - MaxCommitBytes valsCount)
                       - evidenceBytes) = (maxBytes - need)%Z).
  { subst need. rewrite Hc. unfold MaxOverheadForBlock, MaxHeaderBytes.
    rewrite (wrap64_small (maxBytes - 11)) by lia.
    rewrite (wrap64_small (maxBytes - 11 - 626)) by lia.
    rewrite (wrap64_small (maxBytes - 11 - 626 - (94 + 111 * valsCount)))
      by lia.
    rewrite wrap64_small by lia. lia. }
  unfold MaxDataBytes. rewrite Hd.
  assert (Hneed : (0 <= need < 2 ^ 62)%Z).
  { subst need. rewrite Hc. unfold MaxOverheadForBlock, MaxHeaderBytes. lia. }
  split; intros Hcmp.
  - destruct (Z.ltb_spec (maxBytes - need) 0); [lia | reflexivity].
  - destruct (Z.ltb_spec (maxBytes - need) 0); [|lia].
    rewrite (wrap64_small (maxBytes - need - maxBytes)) by lia.
    rewrite wrap64_small by lia.
    replace (- (maxBytes - need - maxBytes))%Z with need by lia.
    reflexivity.
Qed.

(** X16. Whatever its arguments, [MaxDataBytes] never returns a negative
    size, and [MaxDataBytesNoEvidence] is [MaxDataBytes] with no evidence:
    both return the same size, or both panic. *)
Theorem MaxDataBytes_never_negative (maxBytes evidenceBytes valsCount : Z) :
  (forall d,
      MaxDataBytes maxBytes evidenceBytes valsCount = Returns d ->
      (0 <= d < 2 ^ 63)%Z) /\
  match MaxDataBytesNoEvidence maxBytes valsCount,
        MaxDataBytes maxBytes 0 valsCount with
  | Returns a, Returns b => a = b
  | Panics _, Panics _ => True
  | _, _ => False
  end.
Proof.
  split.
  - intros d. unfold MaxDataBytes.
    match goal with |- context [(?x <? 0)%Z] => set (m := x) end.
    pose proof (wrap64_range
                  (wrap64 (wrap64 (wrap64 (maxBytes - MaxOverheadForBlock)
                                   - MaxHeaderBytes)
                           - MaxCommitBytes valsCount) - evidenceBytes)).
    fold m in H. destruct (Z.ltb_spec m 0); [discriminate|].
    intros [= <-]. lia.
  - unfold MaxDataBytesNoEvidence, MaxDataBytes.
    set (m := wrap64 (wrap64 (wrap64 (maxBytes - MaxOverheadForBlock)
                              - MaxHeaderBytes)
                      - MaxCommitBytes valsCount)).
    assert (Hm : wrap64 (m - 0) = m).
    { rewrite Z.sub_0_r. apply wrap64_small. apply wrap64_range. }
    rewrite Hm. now destruct (m <? 0)%Z.
Qed.

Section ValidationProperties.
Context `{EW : Elsewhere}.

(** X17. [CommitSig.ValidateBasic] accepts exactly two shapes: an absent
    signature with no address, the zero time and no signature bytes; or a
    commit or nil vote with an address of [AddressSize] bytes and a
    signature of 1 to [MaxSignatureSize] bytes.  [NewCommitSigAbsent] is of
    the first shape. *)
Theorem CommitSig_ValidateBasic_ok_iff (cs : CommitSig.t) :
  (CommitSig_ValidateBasic cs = None <->
   (CommitSig.BlockIDFlag cs = BlockIDFlagAbsent /\
    len (CommitSig.ValidatorAddress cs) = 0%Z /\
    CommitSig.Timestamp cs = 0%Z /\
    len (CommitSig.Signature cs) = 0%Z)
   \/
   ((CommitSig.BlockIDFlag cs = BlockIDFlagCommit \/
     CommitSig.BlockIDFlag cs = BlockIDFlagNil) /\
    len (CommitSig.ValidatorAddress cs) = AddressSize /\
    (0 < len (CommitSig.Signature cs) <= MaxSignatureSize)%Z)) /\
  CommitSig_ValidateBasic NewCommitSigAbsent = None.
Proof.
  split; [|reflexivity].
  pose proof (len_nonneg (CommitSig.Signature cs)).
  unfold CommitSig_ValidateBasic, Time_IsZero,
    BlockIDFlagAbsent, BlockIDFlagCommit, BlockIDFlagNil.
  split.
  - split_ifs; boolZ; try discriminate; intros _;
      repeat match goal with H : _ \/ _ |- _ => destruct H end; boolZ;
      try lia; (left + right); repeat split; auto; lia.
  - intros [[Hf [Ha [Ht Hs]]]|[Hf [Ha Hs]]]; split_ifs; boolZ;
      try reflexivity;
      repeat match goal with H : _ \/ _ |- _ => destruct H end; boolZ;
      exfalso; lia.
Qed.

(** X18. [CommitSig.BlockID] panics on an unknown flag and on nothing else;
    it returns the commit's BlockID for a commit vote and the empty BlockID
    for an absent or nil one.  A signature that passed [ValidateBasic] never
    makes it panic. *)
Theorem CommitSig_BlockID_cases (cs : CommitSig.t) (commitBlockID : BlockID.t) :
  let flag := CommitSig.BlockIDFlag cs in
  (flag = BlockIDFlagCommit ->
   CommitSig_BlockID cs commitBlockID = Returns commitBlockID) /\
  (flag = BlockIDFlagAbsent \/ flag = BlockIDFlagNil ->
   CommitSig_BlockID cs commitBlockID = Returns BlockID_zero) /\
  ((exists p, CommitSig_BlockID cs commitBlockID = Panics p) <->
   flag <> BlockIDFlagAbsent /\ flag <> BlockIDFlagCommit /\
   flag <> BlockIDFlagNil) /\
  (CommitSig_ValidateBasic cs = None ->
   exists b, CommitSig_BlockID cs commitBlockID = Returns b).
Proof.
  cbv zeta. unfold CommitSig_BlockID, CommitSig_ValidateBasic,
    BlockIDFlagAbsent, BlockIDFlagCommit, BlockIDFlagNil.
  split; [|split; [|split; [split|]]].
  - intros ->. reflexivity.
  - intros [-> | ->]; reflexivity.
  - intros [p Hp]; revert Hp; split_ifs; boolZ; try discriminate;
      intros _; lia.
  - intros [H1 [H2 H3]]. split_ifs; boolZ; try lia. eexists. reflexivity.
  - split_ifs; boolZ; try discriminate; intros _;
      try (eexists; reflexivity);
      repeat match goal with H : _ \/ _ |- _ => destruct H end; lia.
Qed.


(** X19. Converting a commit signature to protobuf and back gives the
    signature back, together with the verdict of [ValidateBasic] on it; so
    does an extended commit signature. *)
Theorem CommitSig_proto_round_trip
        (cs : CommitSig.t) (ecs : ExtendedCommitSig.t) :
  (0 <= CommitSig.BlockIDFlag cs < 256)%Z ->
  (0 <= CommitSig.BlockIDFlag (ExtendedCommitSig.CommitSig ecs) < 256)%Z ->
  (exists csp,
      CommitSig_ToProto (Some cs) = Some csp /\
      CommitSig_FromProto csp = (cs, CommitSig_ValidateBasic cs)) /\
  (exists ecsp,
      ExtendedCommitSig_ToProto (Some ecs) = Some ecsp /\
      ExtendedCommitSig_FromProto ecsp
      = (ecs, ExtendedCommitSig_ValidateBasic ecs)).
Proof.
  intros Hcs Hecs. split; eexists; (split; [reflexivity|]).
  - unfold CommitSig_FromProto, to_byte. simpl.
    rewrite Z.mod_small by lia. now destruct cs.
  - unfold ExtendedCommitSig_FromProto, to_byte. simpl.
    rewrite Z.mod_small by lia.
    destruct ecs as [c e es]. now destruct c.
Qed.

Lemma to_byte_add (f k : Z) : to_byte (f + 256 * k) = to_byte f.
Proof.
  unfold to_byte. replace (f + 256 * k)%Z with (f + k * 256)%Z by lia.
  apply Z.mod_add. lia.
Qed.

(** X20. [FromProto] keeps the low eight bits of the protobuf flag only:
    two protobuf signatures whose flags differ by a multiple of 256 are read
    as the same signature, with the same verdict. *)
Theorem CommitSig_FromProto_flag_truncated
        (csp : cmtproto.CommitSig.t) (k : Z) :
  CommitSig_FromProto
    {| cmtproto.CommitSig.BlockIdFlag :=
         cmtproto.CommitSig.BlockIdFlag csp + 256 * k;
       cmtproto.CommitSig.ValidatorAddress :=
         cmtproto.CommitSig.ValidatorAddress csp;
       cmtproto.CommitSig.Timestamp := cmtproto.CommitSig.Timestamp csp;
       cmtproto.CommitSig.Signature := cmtproto.CommitSig.Signature csp |}
  = CommitSig_FromProto csp.
Proof.
  unfold CommitSig_FromProto.
  cbn [cmtproto.CommitSig.BlockIdFlag cmtproto.CommitSig.ValidatorAddress
       cmtproto.CommitSig.Timestamp cmtproto.CommitSig.Signature].
  now rewrite to_byte_add.
Qed.

(** X21. [ExtendedCommitSig.ValidateBasic] accepts exactly the extended
    signatures whose commit signature is accepted and whose extension
    fits: on a commit vote an extension of at most [MaxVoteExtensionSize]
    bytes with a signature of at most [MaxSignatureSize] bytes (an empty
    one included); on any other vote no extension without a signature.
    [NewExtendedCommitSigAbsent] is accepted. *)
Theorem ExtendedCommitSig_ValidateBasic_ok_iff (ecs : ExtendedCommitSig.t) :
  (ExtendedCommitSig_ValidateBasic ecs = None <->
   CommitSig_ValidateBasic (ExtendedCommitSig.CommitSig ecs) = None /\
   (CommitSig.BlockIDFlag (ExtendedCommitSig.CommitSig ecs)
    = BlockIDFlagCommit ->
    (len (ExtendedCommitSig.Extension ecs) <= MaxVoteExtensionSize)%Z /\
    (len (ExtendedCommitSig.ExtensionSignature ecs) <= MaxSignatureSize)%Z) /\
   (CommitSig.BlockIDFlag (ExtendedCommitSig.CommitSig ecs)
    <> BlockIDFlagCommit ->
    len (ExtendedCommitSig.ExtensionSignature ecs) = 0%Z ->
    len (ExtendedCommitSig.Extension ecs) = 0%Z)) /\
  ExtendedCommitSig_ValidateBasic NewExtendedCommitSigAbsent = None.
Proof.
  split; [|reflexivity].
  unfold ExtendedCommitSig_ValidateBasic.
  destruct (CommitSig_ValidateBasic (ExtendedCommitSig.CommitSig ecs));
    [split; [discriminate | intros [Hc _]; discriminate Hc]|].
  split.
  - split_ifs; boolZ; try discriminate; intros _;
      (split; [reflexivity|]); split; intros; try lia; try tauto.
  - intros [_ [Hcommit Hother]]. split_ifs; boolZ; try reflexivity.
    + specialize (Hcommit ltac:(assumption)). lia.
    + specialize (Hcommit ltac:(assumption)). lia.
    + exfalso. apply H0. now apply Hother.
Qed.

(** X22. [EnsureExtension], spelled out.  With extensions enabled a commit
    vote must carry an extension signature and any other vote neither an
    extension nor a signature for one; with extensions disabled no vote may
    carry either. *)
Theorem EnsureExtension_ok_iff (ecs : ExtendedCommitSig.t) (extEnabled : bool) :
  let flag := CommitSig.BlockIDFlag (ExtendedCommitSig.CommitSig ecs) in
  let ext := len (ExtendedCommitSig.Extension ecs) in
  let sig := len (ExtendedCommitSig.ExtensionSignature ecs) in
  EnsureExtension ecs extEnabled = None <->
  if extEnabled then
    (flag = BlockIDFlagCommit /\ sig <> 0%Z) \/
    (flag <> BlockIDFlagCommit /\ ext = 0%Z /\ sig = 0%Z)
  else ext = 0%Z /\ sig = 0%Z.
Proof.
  cbv zeta. unfold EnsureExtension.
  destruct extEnabled; split.
  - split_ifs; boolZ; try discriminate; intros _; lia.
  - intros Hok. split_ifs; boolZ; try reflexivity; exfalso; lia.
  - split_ifs; boolZ; try discriminate; intros _; lia.
  - intros Hok. split_ifs; boolZ; try reflexivity; exfalso; lia.
Qed.

(** [s[i]] in a slice filled by a loop [cs[idx] = f(s[idx])]. *)
Lemma index_map {A B} (f : A -> B) (s : list A) (i : Z) :
  index (map f s) i
  = match index s i with
    | Returns x => Returns (f x)
    | Panics p => Panics p
    end.
Proof.
  unfold index. rewrite length_map, nth_error_map.
  destruct (i <? 0)%Z; [reflexivity|].
  now destruct (nth_error s (Z.to_nat i)).
Qed.

(** X23. [WrappedExtendedCommit] and [ToCommit] copy Height, Round and
    BlockID and fill a new slice of the same length, signature by signature:
    wrapping gives every signature nil extension fields, [ToCommit] keeps
    the [CommitSig] of each.  So a commit wrapped and converted back agrees
    with the original in Height, Round, BlockID, number of signatures and
    the signature at every index (the slice itself is made anew, a nil
    [Signatures] comes back as an empty one, and the memoized hash and bit
    array are not carried over); a wrapped commit [IsCommit] exactly when
    the commit has signatures; and an extended commit whose signatures all
    have nil extension fields agrees in the same way with the wrapping of
    its commit. *)
Theorem ToCommit_WrappedExtendedCommit (commit : Commit.t)
        (ec : ExtendedCommit.t) :
  let wrapped := WrappedExtendedCommit commit in
  let back := ToCommit wrapped in
  let rewrapped := WrappedExtendedCommit (ToCommit ec) in
  (ExtendedCommit.Height wrapped = Commit.Height commit /\
   ExtendedCommit.Round wrapped = Commit.Round commit /\
   ExtendedCommit.BlockID wrapped = Commit.BlockID commit /\
   ExtendedCommit_Size (Some wrapped) = Commit_Size (Some commit) /\
   ExtendedCommit_IsCommit wrapped
   = negb (Commit_Size (Some commit) =? 0)%Z /\
   forall i,
     index (ExtendedCommit.ExtendedSignatures wrapped) i
     = match index (Commit.Signatures commit) i with
       | Returns s =>
           Returns {| ExtendedCommitSig.CommitSig := s;
                      ExtendedCommitSig.Extension := None;
                      ExtendedCommitSig.ExtensionSignature := None |}
       | Panics p => Panics p
       end) /\
  (Commit.Height (ToCommit ec) = ExtendedCommit.Height ec /\
   Commit.Round (ToCommit ec) = ExtendedCommit.Round ec /\
   Commit.BlockID (ToCommit ec) = ExtendedCommit.BlockID ec /\
   Commit_Size (Some (ToCommit ec)) = ExtendedCommit_Size (Some ec) /\
   forall i,
     index (Commit.Signatures (ToCommit ec)) i
     = match index (ExtendedCommit.ExtendedSignatures ec) i with
       | Returns ecs => Returns (ExtendedCommitSig.CommitSig ecs)
       | Panics p => Panics p
       end) /\
  (Commit.Height back = Commit.Height commit /\
   Commit.Round back = Commit.Round commit /\
   Commit.BlockID back = Commit.BlockID commit /\
   Commit_Size (Some back) = Commit_Size (Some commit) /\
   forall i,
     index (Commit.Signatures back) i = index (Commit.Signatures commit) i) /\
  (Forall (fun ecs => ExtendedCommitSig.Extension ecs = None /\
                      ExtendedCommitSig.ExtensionSignature ecs = None)
          (ExtendedCommit.ExtendedSignatures ec) ->
   ExtendedCommit.Height rewrapped = ExtendedCommit.Height ec /\
   ExtendedCommit.Round rewrapped = ExtendedCommit.Round ec /\
   ExtendedCommit.BlockID rewrapped = ExtendedCommit.BlockID ec /\
   ExtendedCommit_Size (Some rewrapped) = ExtendedCommit_Size (Some ec) /\
   forall i,
     index (ExtendedCommit.ExtendedSignatures rewrapped) i
     = index (ExtendedCommit.ExtendedSignatures ec) i).
Proof.
  cbv zeta.
  unfold ToCommit, WrappedExtendedCommit, ExtendedCommit_Size, Commit_Size,
    ExtendedCommit_IsCommit.
  cbn [ExtendedCommit.ExtendedSignatures Commit.Signatures
       ExtendedCommit.Height ExtendedCommit.Round ExtendedCommit.BlockID
       Commit.Height Commit.Round Commit.BlockID].
  split; [|split; [|split]].
  - do 3 (split; [reflexivity|]). rewrite length_map.
    do 2 (split; [reflexivity|]). intros i. apply index_map.
  - do 3 (split; [reflexivity|]). rewrite length_map.
    split; [reflexivity|]. intros i. apply index_map.
  - do 3 (split; [reflexivity|]). rewrite !length_map.
    split; [reflexivity|]. intros i. rewrite !index_map.
    now destruct (index (Commit.Signatures commit) i).
  - intros Hall. do 3 (split; [reflexivity|]). rewrite !length_map.
    split; [reflexivity|]. intros i. rewrite !index_map.
    unfold index. destruct (i <? 0)%Z; [reflexivity|].
    destruct (nth_error (ExtendedCommit.ExtendedSignatures ec) (Z.to_nat i))
      as [ecs|] eqn:Hi; [|reflexivity].
    apply nth_error_In in Hi.
    rewrite Forall_forall in Hall. destruct (Hall _ Hi) as [He Hs].
    destruct ecs; simpl in *. now subst.
Qed.

Lemma ensure_all_wrapped (sigs : list CommitSig.t) (extEnabled : bool) :
  ensure_all
    (map (fun s => {| ExtendedCommitSig.CommitSig := s;
                      ExtendedCommitSig.Extension := None;
                      ExtendedCommitSig.ExtensionSignature := None |}) sigs)
    extEnabled = None <->
  (extEnabled = true ->
   Forall (fun s => CommitSig.BlockIDFlag s <> BlockIDFlagCommit) sigs).
Proof.
  induction sigs as [|s rest IH]; simpl.
  - split; [constructor | reflexivity].
  - unfold EnsureExtension at 1. simpl.
    destruct extEnabled; simpl.
    + rewrite andb_false_r, andb_true_r.
      destruct (Z.eqb_spec (CommitSig.BlockIDFlag s) BlockIDFlagCommit);
        simpl.
      * split; [discriminate|]. intros Hall.
        specialize (Hall eq_refl). inversion Hall; subst. contradiction.
      * rewrite IH. split.
        -- intros Hrest _. constructor; [assumption | now apply Hrest].
        -- intros Hall _. specialize (Hall eq_refl). now inversion Hall.
    + rewrite IH. split; [discriminate | intros _; discriminate].
Qed.

(** X24. A wrapped commit always satisfies [EnsureExtensions] with
    extensions disabled; with extensions enabled it does exactly when none
    of its signatures is a commit vote. *)
Theorem EnsureExtensions_WrappedExtendedCommit (commit : Commit.t) :
  EnsureExtensions (WrappedExtendedCommit commit) false = None /\
  (EnsureExtensions (WrappedExtendedCommit commit) true = None <->
   Forall (fun s => CommitSig.BlockIDFlag s <> BlockIDFlagCommit)
          (Commit.Signatures commit)).
Proof.
  unfold EnsureExtensions, WrappedExtendedCommit. simpl. split.
  - apply ensure_all_wrapped. discriminate.
  - rewrite ensure_all_wrapped. split; [intros H; now apply H | auto].
Qed.



(** What [ExtendedCommitSig.ValidateBasic] accepts has a commit signature
    that [CommitSig.ValidateBasic] accepts. *)
Lemma ExtendedCommitSig_ValidateBasic_sound (ecs : ExtendedCommitSig.t) :
  ExtendedCommitSig_ValidateBasic ecs = None ->
  CommitSig_ValidateBasic (ExtendedCommitSig.CommitSig ecs) = None.
Proof.
  unfold ExtendedCommitSig_ValidateBasic.
  now destruct (CommitSig_ValidateBasic (ExtendedCommitSig.CommitSig ecs)).
Qed.

(** A signature that passed [ValidateBasic] has a BlockID. *)
Lemma CommitSig_BlockID_valid (cs : CommitSig.t) (commitBlockID : BlockID.t) :
  CommitSig_ValidateBasic cs = None ->
  exists b, CommitSig_BlockID cs commitBlockID = Returns b.
Proof.
  unfold CommitSig_BlockID, CommitSig_ValidateBasic,
    BlockIDFlagAbsent, BlockIDFlagCommit, BlockIDFlagNil.
  split_ifs; boolZ; try discriminate; intros _;
    try (eexists; reflexivity);
    repeat match goal with H : _ \/ _ |- _ => destruct H end; lia.
Qed.

Lemma validate_sigs_ok_iff (i : Z) (sigs : list CommitSig.t) :
  validate_sigs i sigs = None <->
  Forall (fun s => CommitSig_ValidateBasic s = None) sigs.
Proof.
  revert i. induction sigs as [|s rest IH]; intros i; simpl.
  - split; [constructor | reflexivity].
  - destruct (CommitSig_ValidateBasic s) eqn:Hs.
    + split; [discriminate|]. intros Hall. inversion Hall; congruence.
    + rewrite IH. split; [now constructor | now inversion 1].
Qed.

Lemma validate_extended_sigs_ok_iff (i : Z) (sigs : list ExtendedCommitSig.t) :
  validate_extended_sigs i sigs = None <->
  Forall (fun s => ExtendedCommitSig_ValidateBasic s = None) sigs.
Proof.
  revert i. induction sigs as [|s rest IH]; intros i; simpl.
  - split; [constructor | reflexivity].
  - destruct (ExtendedCommitSig_ValidateBasic s) eqn:Hs.
    + split; [discriminate|]. intros Hall. inversion Hall; congruence.
    + rewrite IH. split; [now constructor | now inversion 1].
Qed.

Lemma validate_sigs_first_bad (i : Z) (good rest : list CommitSig.t)
      (bad : CommitSig.t) (err : error) :
  Forall (fun s => CommitSig_ValidateBasic s = None) good ->
  CommitSig_ValidateBasic bad = Some err ->
  validate_sigs i (good ++ bad :: rest)
  = Some (fmt_Errorf "wrong CommitSig #%d: %v"
                     [arg_int (i + Z.of_nat (List.length good));
                      arg_error err]).
Proof.
  intros Hgood Hbad. revert i.
  induction Hgood as [|s good Hs _ IH]; intros i;
    cbn [Datatypes.app validate_sigs List.length].
  - rewrite Hbad. do 4 f_equal. lia.
  - rewrite Hs, IH. do 4 f_equal. lia.
Qed.

(** What a commit that passed [ValidateBasic] is made of. *)
Lemma Commit_ValidateBasic_ok (commit : Commit.t) :
  Commit_ValidateBasic commit = None ->
  (0 <= Commit.Height commit)%Z /\ (0 <= Commit.Round commit)%Z /\
  ((1 <= Commit.Height commit)%Z ->
   BlockID_IsZero (Commit.BlockID commit) = false /\
   Commit.Signatures commit <> [] /\
   Forall (fun s => CommitSig_ValidateBasic s = None)
          (Commit.Signatures commit)).
Proof.
  unfold Commit_ValidateBasic.
  destruct (Z.ltb_spec (Commit.Height commit) 0); [discriminate|].
  destruct (Z.ltb_spec (Commit.Round commit) 0); [discriminate|].
  destruct (Z.leb_spec 1 (Commit.Height commit));
    [|intros _; repeat split; lia].
  destruct (BlockID_IsZero (Commit.BlockID commit)); [discriminate|].
  destruct (Commit.Signatures commit) as [|s rest] eqn:Hsigs;
    [discriminate|].
  replace (Z.of_nat (List.length (s :: rest)) =? 0)%Z with false
    by (symmetry; apply Z.eqb_neq; simpl; lia).
  rewrite validate_sigs_ok_iff. intros Hall.
  repeat split; try lia; try assumption. discriminate.
Qed.

(** X25. A commit passes [ValidateBasic] exactly when its height and round
    are not negative and, from height 1 on, it is for a block, has
    signatures, and each of them passes [CommitSig.ValidateBasic].  At
    height 0 neither the block nor the signatures are looked at. *)
Theorem Commit_ValidateBasic_ok_iff (commit : Commit.t) :
  Commit_ValidateBasic commit = None <->
  (0 <= Commit.Height commit)%Z /\ (0 <= Commit.Round commit)%Z /\
  ((1 <= Commit.Height commit)%Z ->
   BlockID_IsZero (Commit.BlockID commit) = false /\
   Commit.Signatures commit <> [] /\
   Forall (fun s => CommitSig_ValidateBasic s = None)
          (Commit.Signatures commit)).
Proof.
  unfold Commit_ValidateBasic.
  destruct (Z.ltb_spec (Commit.Height commit) 0);
    [split; [discriminate | lia]|].
  destruct (Z.ltb_spec (Commit.Round commit) 0);
    [split; [discriminate | lia]|].
  destruct (Z.leb_spec 1 (Commit.Height commit));
    [|split; [intros _; repeat split; lia | reflexivity]].
  destruct (BlockID_IsZero (Commit.BlockID commit));
    [split; [discriminate | intros [_ [_ Hh]]; now destruct (Hh ltac:(lia))]|].
  destruct (Commit.Signatures commit) as [|s rest] eqn:Hsigs.
  - simpl. split; [discriminate|].
    intros [_ [_ Hh]]. destruct (Hh ltac:(lia)) as [_ [Hne _]]. contradiction.
  - replace (Z.of_nat (List.length (s :: rest)) =? 0)%Z with false
      by (symmetry; apply Z.eqb_neq; simpl; lia).
    rewrite validate_sigs_ok_iff. split.
    + intros Hall. repeat split; try lia; try assumption. discriminate.
    + intros [_ [_ Hh]]. now destruct (Hh ltac:(lia)) as [_ [_ Hall]].
Qed.

(** X26. When a signature of a commit at height 1 or more is refused, the
    error of [ValidateBasic] names the first refused signature by its index
    and carries the reason. *)
Theorem Commit_ValidateBasic_first_bad
        (commit : Commit.t) (good rest : list CommitSig.t)
        (bad : CommitSig.t) (err : error) :
  (1 <= Commit.Height commit)%Z ->
  (0 <= Commit.Round commit)%Z ->
  BlockID_IsZero (Commit.BlockID commit) = false ->
  Commit.Signatures commit = good ++ bad :: rest ->
  Forall (fun s => CommitSig_ValidateBasic s = None) good ->
  CommitSig_ValidateBasic bad = Some err ->
  Commit_ValidateBasic commit
  = Some (fmt_Errorf "wrong CommitSig #%d: %v"
                     [arg_int (Z.of_nat (List.length good)); arg_error err]).
Proof.
  intros Hh Hr Hz Hsigs Hgood Hbad. unfold Commit_ValidateBasic.
  destruct (Z.ltb_spec (Commit.Height commit) 0); [lia|].
  destruct (Z.ltb_spec (Commit.Round commit) 0); [lia|].
  destruct (Z.leb_spec 1 (Commit.Height commit)); [|lia].
  rewrite Hz, Hsigs.
  replace (Z.of_nat (List.length (good ++ bad :: rest)) =? 0)%Z with false
    by (symmetry; apply Z.eqb_neq; rewrite length_app; simpl; lia).
  now rewrite (validate_sigs_first_bad 0 good rest bad err).
Qed.

(** X27. Validity carries over between a commit and its extended form: an
    extended commit that passes [ValidateBasic] converts to a commit that
    passes it, and, the two size limits not being negative, a commit that
    passes it wraps to an extended commit that passes it. *)
Theorem ValidateBasic_carries_over
        (commit : Commit.t) (ec : ExtendedCommit.t) :
  (ExtendedCommit_ValidateBasic ec = None ->
   Commit_ValidateBasic (ToCommit ec) = None) /\
  ((0 <= MaxVoteExtensionSize)%Z -> (0 <= MaxSignatureSize)%Z ->
   Commit_ValidateBasic commit = None ->
   ExtendedCommit_ValidateBasic (WrappedExtendedCommit commit) = None).
Proof.
  split.
  - unfold ExtendedCommit_ValidateBasic, Commit_ValidateBasic, ToCommit.
    simpl. rewrite length_map.
    destruct (ExtendedCommit.Height ec <? 0)%Z; [discriminate|].
    destruct (ExtendedCommit.Round ec <? 0)%Z; [discriminate|].
    destruct (1 <=? ExtendedCommit.Height ec)%Z; [|reflexivity].
    destruct (BlockID_IsZero (ExtendedCommit.BlockID ec)); [discriminate|].
    destruct (Z.of_nat (List.length (ExtendedCommit.ExtendedSignatures ec))
              =? 0)%Z; [discriminate|].
    rewrite validate_extended_sigs_ok_iff, validate_sigs_ok_iff.
    intros Hall. rewrite Forall_map.
    eapply Forall_impl; [|exact Hall].
    intros ecs Hecs. now apply ExtendedCommitSig_ValidateBasic_sound.
  - intros Hve Hsig.
    unfold ExtendedCommit_ValidateBasic, Commit_ValidateBasic,
      WrappedExtendedCommit.
    simpl. rewrite length_map.
    destruct (Commit.Height commit <? 0)%Z; [discriminate|].
    destruct (Commit.Round commit <? 0)%Z; [discriminate|].
    destruct (1 <=? Commit.Height commit)%Z; [|reflexivity].
    destruct (BlockID_IsZero (Commit.BlockID commit)); [discriminate|].
    destruct (Z.of_nat (List.length (Commit.Signatures commit)) =? 0)%Z;
      [discriminate|].
    rewrite validate_extended_sigs_ok_iff, validate_sigs_ok_iff.
    intros Hall. rewrite Forall_map.
    eapply Forall_impl; [|exact Hall].
    intros s Hs. unfold ExtendedCommitSig_ValidateBasic. simpl.
    rewrite Hs. split_ifs; boolZ; try reflexivity; lia.
Qed.

(** X28. [GetVote] panics when the index is out of range and otherwise
    builds a vote, never nil: a precommit at the commit's height and round
    by the validator of that index, with no extension, for the commit's
    block when the signature is a commit vote and for no block when it is
    absent or nil.  On a commit at height 1 or more that passed
    [ValidateBasic], every index from 0 to its size yields a vote. *)
Theorem GetVote_cases (commit : Commit.t) (valIdx : Z) :
  ((valIdx < 0 \/ Commit_Size (Some commit) <= valIdx)%Z ->
   GetVote commit valIdx
   = Panics (panic_index valIdx
                         (List.length (Commit.Signatures commit)))) /\
  (forall cs blockID,
      (0 <= valIdx)%Z ->
      nth_error (Commit.Signatures commit) (Z.to_nat valIdx) = Some cs ->
      CommitSig_BlockID cs (Commit.BlockID commit) = Returns blockID ->
      GetVote commit valIdx
      = Returns {| Vote.Type_ := PrecommitType;
                   Vote.Height := Commit.Height commit;
                   Vote.Round := Commit.Round commit;
                   Vote.BlockID := blockID;
                   Vote.Timestamp := CommitSig.Timestamp cs;
                   Vote.ValidatorAddress := CommitSig.ValidatorAddress cs;
                   Vote.ValidatorIndex := valIdx;
                   Vote.Signature := CommitSig.Signature cs;
                   Vote.Extension := None;
                   Vote.ExtensionSignature := None |}) /\
  (Commit_ValidateBasic commit = None ->
   (1 <= Commit.Height commit)%Z ->
   (0 <= valIdx < Commit_Size (Some commit))%Z ->
   exists vote, GetVote commit valIdx = Returns vote).
Proof.
  unfold GetVote, index, Commit_Size. split; [|split].
  - intros Hout. destruct (Z.ltb_spec valIdx 0); [reflexivity|].
    destruct Hout as [Hneg|Hbig]; [lia|].
    destruct (nth_error (Commit.Signatures commit) (Z.to_nat valIdx)) eqn:Hn;
      [|reflexivity].
    assert (Hlt : (Z.to_nat valIdx
                   < List.length (Commit.Signatures commit))%nat)
      by (apply nth_error_Some; congruence).
    lia.
  - intros cs blockID Hpos Hn Hb.
    destruct (Z.ltb_spec valIdx 0); [lia|]. now rewrite Hn, Hb.
  - intros Hok Hh Hin.
    apply Commit_ValidateBasic_ok in Hok. destruct Hok as [_ [_ Hsigs]].
    destruct (Hsigs Hh) as [_ [_ Hall]].
    destruct (Z.ltb_spec valIdx 0); [lia|].
    destruct (nth_error (Commit.Signatures commit) (Z.to_nat valIdx))
      as [cs|] eqn:Hn.
    + rewrite Forall_forall in Hall.
      specialize (Hall cs (nth_error_In _ _ Hn)).
      destruct (CommitSig_BlockID_valid cs (Commit.BlockID commit) Hall)
        as [b Hb].
      rewrite Hb. eexists. reflexivity.
    + apply nth_error_None in Hn. lia.
Qed.

(** X29. A complete BlockID is not the BlockID of a nil block, hashes
    having a positive size. *)
Theorem BlockID_IsComplete_not_IsZero (blockID : BlockID.t) :
  (0 < tmhash_Size)%Z ->
  BlockID_IsComplete blockID = true ->
  BlockID_IsZero blockID = false.
Proof.
  unfold BlockID_IsComplete, BlockID_IsZero. intros Hsize Hc. boolZ.
  apply andb_false_iff. left. apply Z.eqb_neq. lia.
Qed.


(** X30. The vote of a validator in the commit of an extended commit is
    its extended vote without the extension and its signature; where one
    panics, so does the other. *)
Theorem GetVote_ToCommit (ec : ExtendedCommit.t) (valIdx : Z) :
  GetVote (ToCommit ec) valIdx
  = match GetExtendedVote ec valIdx with
    | Returns v =>
        Returns {| Vote.Type_ := Vote.Type_ v;
                   Vote.Height := Vote.Height v;
                   Vote.Round := Vote.Round v;
                   Vote.BlockID := Vote.BlockID v;
                   Vote.Timestamp := Vote.Timestamp v;
                   Vote.ValidatorAddress := Vote.ValidatorAddress v;
                   Vote.ValidatorIndex := Vote.ValidatorIndex v;
                   Vote.Signature := Vote.Signature v;
                   Vote.Extension := None;
                   Vote.ExtensionSignature := None |}
    | Panics p => Panics p
    end.
Proof.
  unfold GetVote, GetExtendedVote, ToCommit.
  cbn [Commit.Signatures Commit.BlockID Commit.Height Commit.Round].
  rewrite index_map.
  destruct (index (ExtendedCommit.ExtendedSignatures ec) valIdx)
    as [ecs|p]; [|reflexivity].
  now destruct (CommitSig_BlockID (ExtendedCommitSig.CommitSig ecs)
                                  (ExtendedCommit.BlockID ec)).
Qed.

End ValidationProperties.

(** ** The definitions at work *)

(** Values for what the other files define, to run the definitions on. *)
#[export] Instance sample : Elsewhere := {|
  AddressSize := 20;
  MaxSignatureSize := 64;
  MaxVoteExtensionSize := 1048576;
  tmhash_Size := 32;
  PrecommitType := 2;
  PartSetHeader_IsZero := fun psh =>
    ((PartSetHeader.Total psh =? 0)%Z
     && (len (PartSetHeader.Hash psh) =? 0)%Z)%bool |}.

Definition some_bytes (n : nat) : bytes := Some (repeat Byte.x01 n).

(** A commit vote, a nil vote and a vote with a flag that does not exist. *)
Definition vote_commit : CommitSig.t :=
  {| CommitSig.BlockIDFlag := BlockIDFlagCommit;
     CommitSig.ValidatorAddress := some_bytes 20;
     CommitSig.Timestamp := 1700000000%Z;
     CommitSig.Signature := some_bytes 64 |}.

Definition vote_nil : CommitSig.t :=
  {| CommitSig.BlockIDFlag := BlockIDFlagNil;
     CommitSig.ValidatorAddress := some_bytes 20;
     CommitSig.Timestamp := 1700000001%Z;
     CommitSig.Signature := some_bytes 64 |}.

Definition vote_unknown : CommitSig.t :=
  {| CommitSig.BlockIDFlag := 7;
     CommitSig.ValidatorAddress := some_bytes 20;
     CommitSig.Timestamp := 1700000002%Z;
     CommitSig.Signature := some_bytes 64 |}.

Definition a_block : BlockID.t :=
  {| BlockID.Hash := some_bytes 32;
     BlockID.PartSetHeader :=
       {| PartSetHeader.Total := 1; PartSetHeader.Hash := some_bytes 32 |} |}.

Definition a_commit : Commit.t :=
  {| Commit.Height := 10; Commit.Round := 0; Commit.BlockID := a_block;
     Commit.Signatures := [vote_commit; NewCommitSigAbsent; vote_nil] |}.

Definition a_bad_commit : Commit.t :=
  {| Commit.Height := 10; Commit.Round := 0; Commit.BlockID := a_block;
     Commit.Signatures := [vote_commit; vote_unknown; vote_nil] |}.

Definition extended (s : CommitSig.t) (ext sig : bytes)
  : ExtendedCommitSig.t :=
  {| ExtendedCommitSig.CommitSig := s;
     ExtendedCommitSig.Extension := ext;
     ExtendedCommitSig.ExtensionSignature := sig |}.

Definition an_extended_commit : ExtendedCommit.t :=
  {| ExtendedCommit.Height := 10; ExtendedCommit.Round := 0;
     ExtendedCommit.BlockID := a_block;
     ExtendedCommit.ExtendedSignatures :=
       [extended vote_commit (some_bytes 3) (some_bytes 64);
        extended NewCommitSigAbsent None None] |}.

Example bad_commit_refused :
  Commit_ValidateBasic a_bad_commit
  = Some (fmt_Errorf "wrong CommitSig #%d: %v"
            [arg_int 1;
             arg_error (fmt_Errorf "unknown BlockIDFlag: %v" [arg_int 7])]).
Proof. reflexivity. Qed.

Example vote_of_unknown_flag_panics :
  GetVote a_bad_commit 1
  = Panics (panic_Sprintf "Unknown BlockIDFlag: %v" [arg_int 7]).
Proof. reflexivity. Qed.

Lemma MaxDataBytes_accounts_witness :
  MaxDataBytes 22020096 1000 100 = Returns (22020096 - 12831)%Z /\
  MaxDataBytes 12000 1000 100
  = Panics (panic_Sprintf
      "Negative MaxDataBytes. Block.MaxBytes=%d is too small to accommodate header&lastCommit&evidence=%d"
      [arg_int 12000; arg_int 12831]).
Proof.
  split.
  - apply (proj1 (proj2 (MaxDataBytes_accounts 22020096 1000 100
                           ltac:(lia) ltac:(lia) ltac:(lia)))).
    vm_compute. discriminate.
  - apply (proj2 (proj2 (MaxDataBytes_accounts 12000 1000 100
                           ltac:(lia) ltac:(lia) ltac:(lia)))).
    vm_compute. reflexivity.
Defined.

Lemma MaxDataBytes_never_negative_witness : (0 <= 22007265 < 2 ^ 63)%Z.
Proof.
  apply (proj1 (MaxDataBytes_never_negative 22020096 1000 100) 22007265%Z).
  reflexivity.
Defined.

Lemma CommitSig_ValidateBasic_ok_iff_witness :
  CommitSig_ValidateBasic vote_commit = None.
Proof.
  apply (proj2 (proj1 (CommitSig_ValidateBasic_ok_iff vote_commit))).
  right. repeat split; try (left; reflexivity); try reflexivity;
    try (vm_compute; discriminate).
Defined.

Lemma CommitSig_BlockID_cases_witness :
  CommitSig_BlockID vote_commit a_block = Returns a_block /\
  CommitSig_BlockID vote_nil a_block = Returns BlockID_zero /\
  exists p, CommitSig_BlockID vote_unknown a_block = Panics p.
Proof.
  split; [|split].
  - apply (proj1 (CommitSig_BlockID_cases vote_commit a_block)).
    reflexivity.
  - apply (proj1 (proj2 (CommitSig_BlockID_cases vote_nil a_block))).
    right. reflexivity.
  - apply (proj2 (proj1 (proj2 (proj2
             (CommitSig_BlockID_cases vote_unknown a_block))))).
    repeat split; discriminate.
Defined.

Lemma CommitSig_proto_round_trip_witness :
  exists csp,
    CommitSig_ToProto (Some vote_commit) = Some csp /\
    CommitSig_FromProto csp = (vote_commit, None).
Proof.
  apply (proj1 (CommitSig_proto_round_trip vote_commit
                  (extended vote_nil None None)
                  ltac:(split; [discriminate | reflexivity])
                  ltac:(split; [discriminate | reflexivity]))).
Defined.

Lemma ExtendedCommitSig_ValidateBasic_ok_iff_witness :
  ExtendedCommitSig_ValidateBasic
    (extended vote_commit (some_bytes 3) (some_bytes 64)) = None.
Proof.
  apply (proj2 (proj1 (ExtendedCommitSig_ValidateBasic_ok_iff
                  (extended vote_commit (some_bytes 3) (some_bytes 64))))).
  split; [reflexivity|]. split.
  - intros _. split; vm_compute; discriminate.
  - intros Hflag. now elim Hflag.
Defined.

Lemma EnsureExtension_ok_iff_witness :
  EnsureExtension (extended vote_commit (some_bytes 3) (some_bytes 64)) true
  = None /\
  EnsureExtension (extended vote_nil None None) false = None.
Proof.
  split.
  - apply (proj2 (EnsureExtension_ok_iff
                    (extended vote_commit (some_bytes 3) (some_bytes 64))
                    true)).
    left. split; [reflexivity | discriminate].
  - apply (proj2 (EnsureExtension_ok_iff (extended vote_nil None None)
                                         false)).
    split; reflexivity.
Defined.

Lemma ToCommit_WrappedExtendedCommit_witness :
  let rewrapped :=
    WrappedExtendedCommit (ToCommit (WrappedExtendedCommit a_commit)) in
  ExtendedCommit_Size (Some rewrapped) = 3%Z /\
  index (ExtendedCommit.ExtendedSignatures rewrapped) 1
  = Returns (extended NewCommitSigAbsent None None) /\
  index (Commit.Signatures (ToCommit (WrappedExtendedCommit a_commit))) 2
  = Returns vote_nil /\
  index (Commit.Signatures (ToCommit (WrappedExtendedCommit a_commit))) 3
  = Panics (panic_index 3 3).
Proof.
  cbv zeta.
  destruct (ToCommit_WrappedExtendedCommit a_commit
              (WrappedExtendedCommit a_commit))
    as [_ [_ [[_ [_ [_ [_ Hback]]]] Hre]]].
  destruct Hre as [_ [_ [_ [Hsize Hsigs]]]]; [repeat constructor|].
  split; [exact Hsize|]. split; [exact (Hsigs 1%Z)|].
  split; [exact (Hback 2%Z) | exact (Hback 3%Z)].
Defined.

Lemma EnsureExtensions_WrappedExtendedCommit_witness :
  EnsureExtensions (WrappedExtendedCommit a_commit) false = None /\
  EnsureExtensions
    (WrappedExtendedCommit
       {| Commit.Height := 10; Commit.Round := 0; Commit.BlockID := a_block;
          Commit.Signatures := [NewCommitSigAbsent; vote_nil] |}) true
  = None.
Proof.
  split.
  - apply (proj1 (EnsureExtensions_WrappedExtendedCommit a_commit)).
  - apply (proj2 (proj2 (EnsureExtensions_WrappedExtendedCommit _))).
    repeat constructor; discriminate.
Defined.

Lemma Commit_ValidateBasic_ok_iff_witness :
  (0 <= Commit.Height a_commit)%Z /\ (0 <= Commit.Round a_commit)%Z /\
  ((1 <= Commit.Height a_commit)%Z ->
   BlockID_IsZero (Commit.BlockID a_commit) = false /\
   Commit.Signatures a_commit <> [] /\
   Forall (fun s => CommitSig_ValidateBasic s = None)
          (Commit.Signatures a_commit)).
Proof.
  apply (proj1 (Commit_ValidateBasic_ok_iff a_commit)). reflexivity.
Defined.

Lemma Commit_ValidateBasic_first_bad_witness :
  Commit_ValidateBasic a_bad_commit
  = Some (fmt_Errorf "wrong CommitSig #%d: %v"
            [arg_int 1;
             arg_error (fmt_Errorf "unknown BlockIDFlag: %v" [arg_int 7])]).
Proof.
  apply (Commit_ValidateBasic_first_bad a_bad_commit
           [vote_commit] [vote_nil] vote_unknown
           (fmt_Errorf "unknown BlockIDFlag: %v" [arg_int 7]));
    try reflexivity; try (vm_compute; discriminate).
  repeat constructor.
Defined.

Lemma ValidateBasic_carries_over_witness :
  Commit_ValidateBasic (ToCommit an_extended_commit) = None /\
  ExtendedCommit_ValidateBasic (WrappedExtendedCommit a_commit) = None.
Proof.
  split.
  - apply (proj1 (ValidateBasic_carries_over a_commit an_extended_commit)).
    reflexivity.
  - apply (proj2 (ValidateBasic_carries_over a_commit an_extended_commit));
      try reflexivity; vm_compute; discriminate.
Defined.

Lemma GetVote_cases_witness :
  GetVote a_commit 3 = Panics (panic_index 3 3) /\
  GetVote a_commit (-1) = Panics (panic_index (-1) 3) /\
  exists vote, GetVote a_commit 1 = Returns vote.
Proof.
  split; [|split].
  - apply (proj1 (GetVote_cases a_commit 3)). right. vm_compute.
    discriminate.
  - apply (proj1 (GetVote_cases a_commit (-1))). left. reflexivity.
  - apply (proj2 (proj2 (GetVote_cases a_commit 1))); try reflexivity.
    + vm_compute. discriminate.
    + split; [vm_compute; discriminate | reflexivity].
Defined.

Lemma BlockID_IsComplete_not_IsZero_witness :
  BlockID_IsZero a_block = false.
Proof.
  apply (BlockID_IsComplete_not_IsZero a_block); reflexivity.
Defined.

End types.
